(** * svelte-forms: a shallow embedding of [src/utils.ts] and [src/index.ts]

    The form container of [newForm] is modelled over an explicit JavaScript
    heap, because several properties of the container are about which
    objects are shared and which are copied.

    - A JavaScript value is a primitive or a reference to a heap object.
    - A heap object is an array, a plain object, or any other object (a
      Date, a File, a Map, an instance of a class). A plain object is given
      by its own enumerable properties in [Object.keys] order (a key occurs
      once); another object also has a class and an internal state that no
      spread copies.
      Every object literal, spread and [Object.fromEntries] that the
      container keeps allocates a new object; temporaries that nothing
      refers to afterwards are not allocated.
    - The Svelte stores of the container hold references (or booleans);
      [store.set] and [store.update] replace what the store holds.
    - The collaborators of the container (the Yup schema, the [onSubmit]
      callback, the DOM event) are inputs of the model: a schema is three
      functions of the heap and of the validated object, a callback is a
      function that yields the helper calls and in-place assignments it
      performs and how it completes.
    - An [async] function is run to completion: what it does after an
      [await] is part of the same step. *)

From Stdlib Require Import ZArith String Ascii List Lia DecimalString.
From stdpp Require Import base list strings.

Local Open Scope string_scope.
Local Open Scope list_scope.

(** ** JavaScript values and the heap *)

Abbreviation loc := nat.

Inductive jsvalue :=
| VUndefined
| VNull
| VBool (b : bool)
| VNum (n : Z)
| VStr (s : string)
| VRef (l : loc).

Abbreviation props := (list (string * jsvalue)).

(** [OExotic] is an object that is neither an array nor a plain object: its
    class (prototype), its internal state (the time value of a Date, the
    entries of a Map, the bytes of a File; it may refer to other objects)
    and its own enumerable properties (none for a Date, a File or a Map,
    the instance fields for a class instance). *)
Inductive object :=
| OArray (items : list jsvalue)
| OPlain (fields : props)
| OExotic (class : string) (slots : list jsvalue) (fields : props).

Abbreviation heap := (list object).

(** A new object literal, array literal or [Object.fromEntries] result. *)
Definition alloc (h : heap) (o : object) : heap * loc :=
  (h ++ [o], length h).

(** [!v] is true: numbers are carried as integers, so NaN is not a value of
    the model. *)
Definition falsy (v : jsvalue) : bool :=
  match v with
  | VUndefined | VNull => true
  | VBool b => negb b
  | VNum n => Z.eqb n 0
  | VStr s => String.eqb s EmptyString
  | VRef _ => false
  end.

(** [obj[field]] on a plain object. *)
Fixpoint get_field (fs : props) (field : string) : jsvalue :=
  match fs with
  | [] => VUndefined
  | (k, v) :: rest => if String.eqb k field then v else get_field rest field
  end.

(** [{ ...fs, [field]: v }]: an existing key keeps its position. *)
Fixpoint set_field (fs : props) (field : string) (v : jsvalue) : props :=
  match fs with
  | [] => [(field, v)]
  | (k, w) :: rest =>
      if String.eqb k field then (k, v) :: rest
      else (k, w) :: set_field rest field v
  end.

Definition keys (fs : props) : list string := map fst fs.

(** Decimal spelling of an array index, as [Object.keys] gives it. *)
Definition index_key (i : nat) : string :=
  NilEmpty.string_of_uint (Nat.to_uint i).

Fixpoint indexed (i : nat) (items : list jsvalue) : props :=
  match items with
  | [] => []
  | x :: rest => (index_key i, x) :: indexed (S i) rest
  end.

Fixpoint chars (i : nat) (s : string) : props :=
  match s with
  | EmptyString => []
  | String c rest =>
      (index_key i, VStr (String c EmptyString)) :: chars (S i) rest
  end.

(** The own enumerable properties of the object at [l]: what a spread
    [{ ...x }] copies and what [Object.keys(x)] and [x[field]] observe. A
    location outside the heap has none (no store ever holds one). *)
Definition props_at (h : heap) (l : loc) : props :=
  match h !! l with
  | Some (OPlain fs) => fs
  | Some (OArray items) => indexed 0 items
  | Some (OExotic _ _ fs) => fs
  | None => []
  end.

(** [Object.keys(v)] with [v[field]] for each key; [None] when
    [Object.keys] raises a TypeError ([undefined] and [null]). *)
Definition own_props (h : heap) (v : jsvalue) : option props :=
  match v with
  | VUndefined | VNull => None
  | VBool _ | VNum _ => Some []
  | VStr s => Some (chars 0 s)
  | VRef l => Some (props_at h l)
  end.

(** In-place assignment [x[field] = v] on the plain object at [l]. *)
Definition assign (h : heap) (l : loc) (field : string) (v : jsvalue) : heap :=
  match h !! l with
  | Some (OPlain fs) => <[l := OPlain (set_field fs field v)]> h
  | _ => h
  end.

(** ** src/utils.ts *)

(** One iteration of the [map] callback of [clone]. Every object that is
    not an array takes the spread [{ ...obj[field] }], which keeps the own
    enumerable properties and nothing else. *)
Definition clone_entry (defaultValue : jsvalue) (h : heap)
    (entry : string * jsvalue) : heap * (string * jsvalue) :=
  let (field, v) := entry in
  match defaultValue with
  | VUndefined =>
      match v with
      | VRef l =>
          match h !! l with
          | Some (OArray items) =>
              let (h', l') := alloc h (OArray items) in (h', (field, VRef l'))
          | Some (OPlain fs) =>
              let (h', l') := alloc h (OPlain fs) in (h', (field, VRef l'))
          | Some (OExotic _ _ fs) =>
              let (h', l') := alloc h (OPlain fs) in (h', (field, VRef l'))
          | None => (h, (field, v))
          end
      | _ => (h, (field, v))
      end
  | _ => (h, (field, defaultValue))
  end.

Fixpoint clone_entries (defaultValue : jsvalue) (h : heap) (obj : props)
    : heap * props :=
  match obj with
  | [] => (h, [])
  | entry :: rest =>
      let (h1, entry') := clone_entry defaultValue h entry in
      let (h2, rest') := clone_entries defaultValue h1 rest in
      (h2, entry' :: rest')
  end.

(** [clone(obj, defaultValue)]; [obj] is given by its own properties
    (see [own_props]), [defaultValue] is [VUndefined] when omitted. *)
Definition clone (h : heap) (obj : props) (defaultValue : jsvalue)
    : heap * loc :=
  let (h', entries) := clone_entries defaultValue h obj in
  alloc h' (OPlain entries).

(** ** What the container throws, catches and calls *)

(** One entry of [error.inner]: the callback of [reduce] destructures
    [{ message, path }]; [inner_path] is the property key [path] converts
    to. *)
Record InnerError := {
  inner_path : string;
  inner_message : jsvalue }.

(** An object that was thrown, by what the container reads of it:
    [path] is [None] when ['path' in error] is false (otherwise the key
    [error.path] converts to), [errors] is [None] when
    [Array.isArray(error.errors)] is false, [inner] is [None] when
    [error.inner] is falsy. *)
Record ErrorObject := {
  message : string;
  path : option string;
  errors : option (list jsvalue);
  inner : option (list InnerError) }.

Inductive thrown :=
| ThrownPrimitive (v : jsvalue)
| ThrownObject (e : ErrorObject).

(** [new TypeError(msg)], also the ones the engine raises. *)
Definition TypeError (msg : string) : thrown :=
  ThrownObject {| message := msg; path := None; errors := None; inner := None |}.

(** How a call ends; [Return] is the early [return] inside a [try]. *)
Inductive completion :=
| Normal
| Return
| Throw (t : thrown).

Inductive effect :=
| PreventDefault
| StopPropagation
| OnSubmit (values : loc)
| ConsoleError (msg : string).

(** The Yup schema: each method resolves ([None]) or throws. *)
Record Schema := {
  validate : heap -> loc -> option thrown;
  validateAt : string -> heap -> loc -> option thrown;
  validateSyncAt : string -> heap -> loc -> option thrown }.

(** What an [onSubmit] callback does with its two arguments. *)
Inductive callback_step :=
| CallSetFieldError (field : string) (msg : jsvalue)
| CallSetFieldValue (field : string) (v : jsvalue)
| AssignValues (field : string) (v : jsvalue).

Definition Callback := heap -> loc -> list callback_step * option thrown.

Record FormConfig := {
  initialValues : jsvalue;
  onSubmit : option Callback;
  validateOnBlur : bool;
  validateOnChange : bool;
  validateOnFocus : bool;
  validateOnInput : bool;
  validationSchema : option Schema }.

Record File := {
  file_name : string;
  file_size : Z;
  file_type : string }.

Record HTMLInputElement := {
  el_name : string;
  el_type : string;
  el_value : jsvalue;
  el_files : list File }.

(** The event, by what the handlers read of it: [preventDefault] and
    [stopPropagation] say whether the property is a function. *)
Record Event := {
  target : option HTMLInputElement;
  preventDefault : bool;
  stopPropagation : bool }.

(** The closure state of one [newForm] call, with the heap and the trace of
    calls that leave the container. *)
Record Form := {
  mem : heap;
  trace : list effect;
  __initialValues : loc;
  __isSubmitting : bool;
  __isValidating : bool;
  __errors : loc;
  __touched : loc;
  values : loc }.

Definition with_mem (h : heap) (st : Form) : Form :=
  {| mem := h; trace := trace st; __initialValues := __initialValues st;
     __isSubmitting := __isSubmitting st; __isValidating := __isValidating st;
     __errors := __errors st; __touched := __touched st; values := values st |}.

Definition emit (e : effect) (st : Form) : Form :=
  {| mem := mem st; trace := trace st ++ [e];
     __initialValues := __initialValues st;
     __isSubmitting := __isSubmitting st; __isValidating := __isValidating st;
     __errors := __errors st; __touched := __touched st; values := values st |}.

Definition set___initialValues (hl : heap * loc) (st : Form) : Form :=
  {| mem := hl.1; trace := trace st; __initialValues := hl.2;
     __isSubmitting := __isSubmitting st; __isValidating := __isValidating st;
     __errors := __errors st; __touched := __touched st; values := values st |}.

Definition set___isSubmitting (b : bool) (st : Form) : Form :=
  {| mem := mem st; trace := trace st; __initialValues := __initialValues st;
     __isSubmitting := b; __isValidating := __isValidating st;
     __errors := __errors st; __touched := __touched st; values := values st |}.

Definition set___isValidating (b : bool) (st : Form) : Form :=
  {| mem := mem st; trace := trace st; __initialValues := __initialValues st;
     __isSubmitting := __isSubmitting st; __isValidating := b;
     __errors := __errors st; __touched := __touched st; values := values st |}.

Definition set___errors (hl : heap * loc) (st : Form) : Form :=
  {| mem := hl.1; trace := trace st; __initialValues := __initialValues st;
     __isSubmitting := __isSubmitting st; __isValidating := __isValidating st;
     __errors := hl.2; __touched := __touched st; values := values st |}.

Definition set___touched (hl : heap * loc) (st : Form) : Form :=
  {| mem := hl.1; trace := trace st; __initialValues := __initialValues st;
     __isSubmitting := __isSubmitting st; __isValidating := __isValidating st;
     __errors := __errors st; __touched := hl.2; values := values st |}.

Definition set_values (hl : heap * loc) (st : Form) : Form :=
  {| mem := hl.1; trace := trace st; __initialValues := __initialValues st;
     __isSubmitting := __isSubmitting st; __isValidating := __isValidating st;
     __errors := __errors st; __touched := __touched st; values := hl.2 |}.

(** ** src/index.ts *)

Section Container.

(** The unary [+] of [getInputValue] (ECMAScript ToNumber) is left
    abstract: it needs floating point, and nothing below depends on it. *)
Variable ToNumber : jsvalue -> jsvalue.

Definition getInputValue (inputElement : HTMLInputElement) : jsvalue :=
  let type := el_type inputElement in
  if String.eqb type "number" || String.eqb type "range"
  then ToNumber (el_value inputElement)
  else el_value inputElement.

(** The configuration the closures of [newForm] capture. *)
Variable config : FormConfig.

Definition clearErrors (st : Form) : Form :=
  set___errors
    (clone (mem st) (props_at (mem st) (__initialValues st)) VNull) st.

Definition setFieldError (st : Form) (field : string) (msg : jsvalue)
    : Form :=
  set___errors
    (alloc (mem st)
       (OPlain (set_field (props_at (mem st) (__errors st)) field msg)))
    st.

(** [value] defaults to [true] when the argument is [undefined]. *)
Definition setFieldTouched (st : Form) (field : string) (value : jsvalue)
    : Form * completion :=
  let value := match value with VUndefined => VBool true | _ => value end in
  match value with
  | VBool _ =>
      (set___touched
         (alloc (mem st)
            (OPlain (set_field (props_at (mem st) (__touched st))
                       field value)))
         st, Normal)
  | _ =>
      (st, Throw (TypeError
         "Expected a 'boolean' value for 'setFieldTouched'."))
  end.

Definition setInitialValues (st : Form) (initialValues : jsvalue)
    : Form * completion :=
  match own_props (mem st) initialValues with
  | Some obj =>
      (set___initialValues (clone (mem st) obj VUndefined) st, Normal)
  | None =>
      (st, Throw (TypeError "Cannot convert undefined or null to object"))
  end.

(** ['path' in error] raises a TypeError when [error] is a primitive. *)
Definition setYupValidationErrors (st : Form) (error : thrown)
    : Form * completion :=
  match error with
  | ThrownPrimitive _ =>
      (st, Throw (TypeError "Cannot use 'in' operator to search for 'path'"))
  | ThrownObject e =>
      match path e, errors e with
      | Some field, Some messages =>
          (setFieldError st field (hd VUndefined messages), Normal)
      | _, _ =>
          (emit (ConsoleError "Missing 'path' and 'errors' array.") st,
           Normal)
      end
  end.

(** [config.validationSchema.m(...)]: reading [m] of [undefined] raises a
    TypeError. *)
Definition call_schema (m : Schema -> option thrown) : option thrown :=
  match validationSchema config with
  | Some schema => m schema
  | None => Some (TypeError "Cannot read properties of undefined")
  end.

Definition validateField (st : Form) (field : string) : Form * completion :=
  let currentFormValues := values st in
  match call_schema (fun s => validateAt s field (mem st) currentFormValues)
  with
  | None => (setFieldError st field VNull, Normal)
  | Some error => setYupValidationErrors st error
  end.

Definition validateFieldSync (st : Form) (field : string)
    : Form * completion :=
  let currentFormValues := values st in
  match
    call_schema (fun s => validateSyncAt s field (mem st) currentFormValues)
  with
  | None =>
      (set___errors
         (alloc (mem st)
            (OPlain (set_field (props_at (mem st) (__errors st))
                       field VUndefined)))
         st, Normal)
  | Some error => setYupValidationErrors st error
  end.

Definition setFieldValue (st : Form) (field : string) (value : jsvalue)
    (shouldValidateField : bool) : Form * completion :=
  let st :=
    set_values
      (alloc (mem st)
         (OPlain (set_field (props_at (mem st) (values st)) field value)))
      st in
  if shouldValidateField && bool_decide (is_Some (validationSchema config))
  then validateFieldSync st field
  else (st, Normal).

Definition reset (st : Form) : Form :=
  set_values (mem st, __initialValues st) st.

(** [validateField] is not awaited by the handlers: how it completes is
    dropped. *)
Definition handleBlur (st : Form) (event : Event) : Form * completion :=
  match target event with
  | None => (st, Throw (TypeError "Cannot read properties of undefined"))
  | Some target =>
      let name := el_name target in
      let (st, c) := setFieldTouched st name VUndefined in
      match c with
      | Normal =>
          if validateOnBlur config
          then ((validateField st name).1, Normal)
          else (st, Normal)
      | _ => (st, c)
      end
  end.

Definition handleChange (st : Form) (event : Event) : Form * completion :=
  match target event with
  | None => (st, Throw (TypeError "Cannot read properties of undefined"))
  | Some target =>
      let name := el_name target in
      let value := getInputValue target in
      setFieldValue st name value (validateOnChange config)
  end.

Definition handleFocus (st : Form) (event : Event) : Form * completion :=
  match target event with
  | None => (st, Throw (TypeError "Cannot read properties of undefined"))
  | Some target =>
      let name := el_name target in
      let (st, c) := setFieldTouched st name VUndefined in
      match c with
      | Normal =>
          if validateOnFocus config
          then ((validateField st name).1, Normal)
          else (st, Normal)
      | _ => (st, c)
      end
  end.

Definition handleInput (st : Form) (event : Event) : Form * completion :=
  match target event with
  | None => (st, Throw (TypeError "Cannot read properties of undefined"))
  | Some target =>
      let name := el_name target in
      let value := getInputValue target in
      setFieldValue st name value (validateOnInput config)
  end.

(** One thing the callback does: the two helpers are the closures above
    (the helper type gives [setFieldValue] two arguments), an assignment
    writes into the object the callback was given. *)
Definition callback_do (values : loc) (st : Form) (s : callback_step)
    : Form :=
  match s with
  | CallSetFieldError field msg => setFieldError st field msg
  | CallSetFieldValue field v => (setFieldValue st field v false).1
  | AssignValues field v => with_mem (assign (mem st) values field v) st
  end.

(** [await config.onSubmit(currentValues, { setFieldError, setFieldValue })] *)
Definition call_onSubmit (callback : Callback) (st : Form)
    (currentValues : loc) : Form * completion :=
  let st := emit (OnSubmit currentValues) st in
  let (steps, thrown) := callback (mem st) currentValues in
  (fold_left (callback_do currentValues) steps st,
   match thrown with Some t => Throw t | None => Normal end).

(** [error?.inner]: a primitive has no such property. *)
Definition inner_of (error : thrown) : option (list InnerError) :=
  match error with
  | ThrownPrimitive _ => None
  | ThrownObject e => inner e
  end.

(** The [reduce] over [error.inner], from [{}]; only its result is kept. *)
Definition validationErrors_of (inner_errors : list InnerError) : props :=
  fold_left
    (fun acc e => set_field acc (inner_path e) (inner_message e))
    inner_errors [].

(** The inner [try], [catch] and [finally] of [handleSubmit]. *)
Definition validate_values (st : Form) (schema : Schema)
    (currentValues : loc) : Form * completion :=
  let st := set___isValidating true st in
  let (st, c) :=
    match validate schema (mem st) currentValues with
    | None => (st, Normal)
    | Some error =>
        match inner_of error with
        | Some inner_errors =>
            (set___errors
               (alloc (mem st) (OPlain (validationErrors_of inner_errors)))
               st, Return)
        | None => (st, Throw error)
        end
    end in
  (set___isValidating false st, c).

(** The two guarded calls on the event; [event?.m] is [undefined] for a
    missing event. *)
Definition stop_event (st : Form) (event : option Event) : Form :=
  let st :=
    if from_option preventDefault false event
    then emit PreventDefault st else st in
  if from_option stopPropagation false event
  then emit StopPropagation st else st.

Definition handleSubmit (st : Form) (event : option Event)
    : Form * completion :=
  let (st, c) :=
    match onSubmit config with
    | Some callback =>
        let st := stop_event st event in
        let currentValues := values st in
        let st := clearErrors st in
        let st := set___isSubmitting true st in
        let (st, c) :=
          match validationSchema config with
          | Some schema => validate_values st schema currentValues
          | None => (st, Normal)
          end in
        match c with
        | Normal => call_onSubmit callback st currentValues
        | _ => (st, c)
        end
    | None => (st, Normal)
    end in
  (set___isSubmitting false st,
   match c with Return => Normal | _ => c end).

(** The operations of a [FormInstance]. *)
Inductive operation :=
| ClearErrors
| HandleBlur (event : Event)
| HandleChange (event : Event)
| HandleFocus (event : Event)
| HandleInput (event : Event)
| HandleSubmit (event : option Event)
| Reset
| SetInitialValues (initialValues : jsvalue)
| SetFieldError (field : string) (msg : jsvalue)
| SetFieldTouched (field : string) (value : jsvalue)
| SetFieldValue (field : string) (value : jsvalue)
    (shouldValidateField : bool)
| ValidateField (field : string)
| ValidateFieldSync (field : string).

Definition step (st : Form) (op : operation) : Form * completion :=
  match op with
  | ClearErrors => (clearErrors st, Normal)
  | HandleBlur event => handleBlur st event
  | HandleChange event => handleChange st event
  | HandleFocus event => handleFocus st event
  | HandleInput event => handleInput st event
  | HandleSubmit event => handleSubmit st event
  | Reset => (reset st, Normal)
  | SetInitialValues v => setInitialValues st v
  | SetFieldError field msg => (setFieldError st field msg, Normal)
  | SetFieldTouched field value => setFieldTouched st field value
  | SetFieldValue field value b => setFieldValue st field value b
  | ValidateField field => validateField st field
  | ValidateFieldSync field => validateFieldSync st field
  end.

(** A caller that goes on after an operation threw. *)
Definition run (ops : list operation) (st : Form) : Form :=
  fold_left (fun st op => (step st op).1) ops st.

End Container.

(** What [newForm] gives back or throws. *)
Inductive result :=
| Created (form : Form)
| Failed (t : thrown).

Definition newForm (h : heap) (config : option FormConfig) : result :=
  match config with
  | None =>
      Failed (TypeError
        "You must provide a config to 'newForm'. Expected 'config' to be an object, received 'undefined' instead.")
  | Some config =>
      if falsy (initialValues config)
      then
        Failed (TypeError
          "You must specify 'initialValues' with an object to 'FormConfig'.")
      else
        match own_props h (initialValues config) with
        | None =>
            Failed (TypeError "Cannot convert undefined or null to object")
        | Some obj =>
            let (h1, __initialValues) := clone h obj VUndefined in
            let (h2, __errors) := clone h1 (props_at h1 __initialValues) VNull in
            let (h3, __touched) :=
              clone h2 (props_at h2 __initialValues) (VBool false) in
            let (h4, values) :=
              alloc h3 (OPlain (props_at h3 __initialValues)) in
            Created
              {| mem := h4; trace := [];
                 __initialValues := __initialValues;
                 __isSubmitting := false; __isValidating := false;
                 __errors := __errors; __touched := __touched;
                 values := values |}
        end
  end.

(** ** Observing the heap *)

Local Unset Elimination Schemes.

(** What a deep comparison sees of a value, down to [depth] references. *)
Inductive tree :=
| TUndefined
| TNull
| TBool (b : bool)
| TNum (n : Z)
| TStr (s : string)
| TArray (items : list tree)
| TObject (fields : list (string * tree))
| TExotic (class : string) (slots : list tree) (fields : list (string * tree))
| TDeeper
| TDangling.

Local Set Elimination Schemes.

Fixpoint snapshot (depth : nat) (h : heap) (v : jsvalue) : tree :=
  match v with
  | VUndefined => TUndefined
  | VNull => TNull
  | VBool b => TBool b
  | VNum n => TNum n
  | VStr s => TStr s
  | VRef l =>
      match depth with
      | 0 => TDeeper
      | S depth =>
          match h !! l with
          | Some (OArray items) => TArray (map (snapshot depth h) items)
          | Some (OPlain fs) =>
              TObject (map (fun kv => (kv.1, snapshot depth h kv.2)) fs)
          | Some (OExotic class slots fs) =>
              TExotic class (map (snapshot depth h) slots)
                (map (fun kv => (kv.1, snapshot depth h kv.2)) fs)
          | None => TDangling
          end
      end
  end.

(** [expect(v1).toEqual(v2)], each side read in its own heap. *)
Definition deep_equal (h1 : heap) (v1 : jsvalue) (h2 : heap) (v2 : jsvalue)
    : Prop :=
  forall depth, snapshot depth h1 v1 = snapshot depth h2 v2.

(** The values an object holds. *)
Definition contents (o : object) : list jsvalue :=
  match o with
  | OArray items => items
  | OPlain fs => map snd fs
  | OExotic _ slots fs => slots ++ map snd fs
  end.

(** [reach h v l]: the object at [l] is [v] or lies inside it. *)
Inductive reach (h : heap) : jsvalue -> loc -> Prop :=
| reach_here l : reach h (VRef l) l
| reach_inside l o v l' :
    h !! l = Some o -> v ∈ contents o -> reach h v l' -> reach h (VRef l) l'.

(** No object of the heap refers outside of it. *)
Definition closed (h : heap) : Prop :=
  forall l o l', h !! l = Some o -> VRef l' ∈ contents o -> l' < length h.

Definition closedb (h : heap) : bool :=
  forallb
    (fun o =>
       forallb
         (fun v => match v with VRef l' => Nat.ltb l' (length h) | _ => true end)
         (contents o))
    h.

(** Everything of the container but the trace is the same. *)
Definition unchanged (st st' : Form) : Prop :=
  mem st' = mem st /\
  __initialValues st' = __initialValues st /\
  __isSubmitting st' = __isSubmitting st /\
  __isValidating st' = __isValidating st /\
  __errors st' = __errors st /\
  __touched st' = __touched st /\
  values st' = values st.

(** ** Concrete inputs *)

(** [I = { name: 'x', tags: [{ id: 1 }] }] at location 2. *)
Definition sample_heap : heap :=
  [ OPlain [("id", VNum 1)];
    OArray [VRef 0];
    OPlain [("name", VStr "x"); ("tags", VRef 1)] ].

Definition plain_config : FormConfig :=
  {| initialValues := VRef 2; onSubmit := Some (fun _ _ => ([], None));
     validateOnBlur := false; validateOnChange := false;
     validateOnFocus := false; validateOnInput := false;
     validationSchema := None |}.

Definition sample_form : Form :=
  {| mem :=
       sample_heap ++
       [ OArray [VRef 0];
         OPlain [("name", VStr "x"); ("tags", VRef 3)];
         OPlain [("name", VNull); ("tags", VNull)];
         OPlain [("name", VBool false); ("tags", VBool false)];
         OPlain [("name", VStr "x"); ("tags", VRef 3)] ];
     trace := [];
     __initialValues := 4; __isSubmitting := false; __isValidating := false;
     __errors := 5; __touched := 6; values := 7 |}.

(** The input of the test 'Retrieves the selected file(s) if the type is
    "file"': two files and no [value] property. *)
Definition two_files_input : HTMLInputElement :=
  {| el_name := "upload"; el_type := "file"; el_value := VUndefined;
     el_files :=
       [ {| file_name := "file1.txt"; file_size := 8;
            file_type := "text/plain" |};
         {| file_name := "file2.txt"; file_size := 8;
            file_type := "text/plain" |} ] |}.

(** A validation error with a path and an empty [errors] array. *)
Definition empty_errors_error : ErrorObject :=
  {| message := "name is invalid"; path := Some "name"; errors := Some [];
     inner := None |}.

Definition empty_errors_schema : Schema :=
  {| validate := fun _ _ => None;
     validateAt := fun _ _ _ => Some (ThrownObject empty_errors_error);
     validateSyncAt := fun _ _ _ => Some (ThrownObject empty_errors_error) |}.

Definition empty_errors_config : FormConfig :=
  {| initialValues := VRef 2; onSubmit := Some (fun _ _ => ([], None));
     validateOnBlur := false; validateOnChange := false;
     validateOnFocus := false; validateOnInput := false;
     validationSchema := Some empty_errors_schema |}.

(** A TypeError has neither [path] nor [errors]. *)
Definition pathless_error : ErrorObject :=
  {| message := "boom"; path := None; errors := None; inner := None |}.

Definition pathless_schema : Schema :=
  {| validate := fun _ _ => Some (ThrownObject pathless_error);
     validateAt := fun _ _ _ => Some (ThrownObject pathless_error);
     validateSyncAt := fun _ _ _ => Some (ThrownObject pathless_error) |}.

Definition pathless_config : FormConfig :=
  {| initialValues := VRef 2; onSubmit := Some (fun _ _ => ([], None));
     validateOnBlur := false; validateOnChange := false;
     validateOnFocus := false; validateOnInput := false;
     validationSchema := Some pathless_schema |}.

(** [error] has a [path] together with a non-empty [errors] list. *)
Definition has_path_and_messages (error : thrown) : bool :=
  match error with
  | ThrownPrimitive _ => false
  | ThrownObject e =>
      match path e, errors e with
      | Some _, Some (_ :: _) => true
      | _, _ => false
      end
  end.

Definition missing_log : effect :=
  ConsoleError "Missing 'path' and 'errors' array.".

(** ** Reading a submit *)

(** The message of the last entry of [error.inner] whose path is [p]. *)
Fixpoint last_message (p : string) (l : list InnerError) : option jsvalue :=
  match l with
  | [] => None
  | e :: rest =>
      match last_message p rest with
      | Some m => Some m
      | None =>
          if String.eqb (inner_path e) p then Some (inner_message e) else None
      end
  end.

(** The calls on the event that a submit makes. *)
Definition announced (event : option Event) : list effect :=
  (if from_option preventDefault false event then [PreventDefault] else []) ++
  (if from_option stopPropagation false event then [StopPropagation] else []).

(** Two failures for [name], one for [tags]. *)
Definition failing_inner : list InnerError :=
  [ {| inner_path := "name"; inner_message := VStr "too short" |};
    {| inner_path := "tags"; inner_message := VStr "required" |};
    {| inner_path := "name"; inner_message := VStr "not a name" |} ].

Definition failing_error : ErrorObject :=
  {| message := "3 errors occurred"; path := Some "";
     errors := Some [VStr "too short"; VStr "required"; VStr "not a name"];
     inner := Some failing_inner |}.

Definition failing_schema : Schema :=
  {| validate := fun _ _ => Some (ThrownObject failing_error);
     validateAt := fun _ _ _ => None;
     validateSyncAt := fun _ _ _ => None |}.

(** A callback that blanks the field of the object it is given and
    reports an error through the helper. *)
Definition scrubbing_callback : Callback :=
  fun _ _ =>
    ([AssignValues "name" (VStr "scrubbed");
      CallSetFieldError "name" (VStr "taken")], None).

Definition failing_config : FormConfig :=
  {| initialValues := VRef 2; onSubmit := Some scrubbing_callback;
     validateOnBlur := false; validateOnChange := false;
     validateOnFocus := false; validateOnInput := false;
     validationSchema := Some failing_schema |}.

Definition scrubbing_config : FormConfig :=
  {| initialValues := VRef 2; onSubmit := Some scrubbing_callback;
     validateOnBlur := false; validateOnChange := false;
     validateOnFocus := false; validateOnInput := false;
     validationSchema := None |}.

Definition click : Event :=
  {| target := None; preventDefault := true; stopPropagation := true |}.

(** Validation passed, or there is no schema to run. *)
Definition validation_passes (config : FormConfig) (st : Form) : Prop :=
  match validationSchema config with
  | Some schema => validate schema (mem (clearErrors st)) (values st) = None
  | None => True
  end.

(** A callback that throws, and a schema that throws something that is not
    a validation error. *)
Definition throwing_config : FormConfig :=
  {| initialValues := VRef 2;
     onSubmit := Some (fun _ _ => ([], Some (ThrownPrimitive (VStr "offline"))));
     validateOnBlur := false; validateOnChange := false;
     validateOnFocus := false; validateOnInput := false;
     validationSchema := None |}.

Definition broken_schema_config : FormConfig :=
  {| initialValues := VRef 2; onSubmit := Some scrubbing_callback;
     validateOnBlur := false; validateOnChange := false;
     validateOnFocus := false; validateOnInput := false;
     validationSchema := Some pathless_schema |}.

(** ** Key sets *)

Definition step_field (s : callback_step) : string :=
  match s with
  | CallSetFieldError field _ => field
  | CallSetFieldValue field _ => field
  | AssignValues field _ => field
  end.

(** The callback and the schema only name fields of [K]. *)
Definition config_within (K : list string) (config : FormConfig) : Prop :=
  (forall callback h l s,
     onSubmit config = Some callback ->
     s ∈ (callback h l).1 -> step_field s ∈ K) /\
  (forall schema,
     validationSchema config = Some schema ->
     (forall h l e inner_errors ie,
        validate schema h l = Some (ThrownObject e) ->
        inner e = Some inner_errors ->
        ie ∈ inner_errors -> inner_path ie ∈ K) /\
     (forall field h l e p,
        validateAt schema field h l = Some (ThrownObject e) ->
        path e = Some p -> is_Some (errors e) -> p ∈ K) /\
     (forall field h l e p,
        validateSyncAt schema field h l = Some (ThrownObject e) ->
        path e = Some p -> is_Some (errors e) -> p ∈ K)).

(** The operation only names fields of [K]; an object given to
    [setInitialValues] has exactly the keys [K]. *)
Definition op_within (K : list string) (st : Form) (op : operation) : Prop :=
  match op with
  | HandleBlur event | HandleChange event
  | HandleFocus event | HandleInput event =>
      forall t, target event = Some t -> el_name t ∈ K
  | SetInitialValues v =>
      forall obj,
        own_props (mem st) v = Some obj -> keys obj ⊆ K /\ K ⊆ keys obj
  | SetFieldError field _ | SetFieldTouched field _
  | SetFieldValue field _ _ | ValidateField field
  | ValidateFieldSync field => field ∈ K
  | ClearErrors | Reset | HandleSubmit _ => True
  end.

Fixpoint ops_within (ToNumber : jsvalue -> jsvalue) (config : FormConfig)
    (K : list string) (st : Form) (ops : list operation) : Prop :=
  match ops with
  | [] => True
  | op :: rest =>
      op_within K st op /\
      ops_within ToNumber config K (step ToNumber config st op).1 rest
  end.

(** Every key of the object at [l] is in [K] and, when [full], every key
    of [K] is a key of the object. *)
Definition keys_at (K : list string) (full : bool) (h : heap) (l : loc)
    : Prop :=
  (l < length h)%nat /\
  keys (props_at h l) ⊆ K /\
  (full = true -> K ⊆ keys (props_at h l)).

Definition key_inv (K : list string) (st : Form) : Prop :=
  keys_at K true (mem st) (values st) /\
  keys_at K true (mem st) (__initialValues st) /\
  keys_at K false (mem st) (__errors st) /\
  keys_at K false (mem st) (__touched st).

(** From [h] to [h'] objects are added, and existing objects gain at most
    keys of [K]. *)
Definition grows (K : list string) (h h' : heap) : Prop :=
  (length h <= length h')%nat /\
  forall l x,
    (l < length h)%nat ->
    (x ∈ keys (props_at h l) -> x ∈ keys (props_at h' l)) /\
    (x ∈ keys (props_at h' l) -> x ∈ keys (props_at h l) \/ x ∈ K).

(** A session on [sample_form] that stays within its two fields. *)
Definition sample_ops : list operation :=
  [ SetFieldValue "name" (VStr "y") true;
    HandleBlur {| target := Some {| el_name := "tags"; el_type := "text";
                                    el_value := VStr "a"; el_files := [] |};
                  preventDefault := false; stopPropagation := false |};
    SetFieldError "name" (VStr "taken");
    HandleSubmit (Some click);
    SetInitialValues (VRef 2);
    Reset;
    ClearErrors;
    ValidateFieldSync "name" ].

(** [ToNumber] on the strings the repository's tests coerce. *)
Definition test_ToNumber (v : jsvalue) : jsvalue :=
  match v with
  | VStr "1234" => VNum 1234
  | _ => v
  end.

(** Operations that name a field the initial values do not have. *)
Definition stray_ops : list operation :=
  [ SetFieldValue "nick" (VStr "007") false;
    SetFieldError "nick" (VStr "too long");
    HandleBlur {| target := Some {| el_name := "nick"; el_type := "text";
                                    el_value := VStr "007"; el_files := [] |};
                  preventDefault := false; stopPropagation := false |} ].

(** ** Copies *)

(** [v] refers into [h], if it refers at all. *)
Definition in_heap (h : heap) (v : jsvalue) : Prop :=
  match v with
  | VRef l => (l < length h)%nat
  | _ => True
  end.

(** [[...o]] for an array, [{ ...o }] for any other object. *)
Definition shallow_copy (o : object) : object :=
  match o with
  | OArray items => OArray items
  | OPlain fs => OPlain fs
  | OExotic _ _ fs => OPlain fs
  end.

(** [v] is a primitive, or refers to an array or to a plain object: the
    values that [clone] copies without loss. *)
Definition plain_data (h : heap) (v : jsvalue) : bool :=
  match v with
  | VRef c =>
      match h !! c with
      | Some (OExotic _ _ _) => false
      | _ => true
      end
  | _ => true
  end.

(** Every field of [obj] holds such a value. *)
Definition plain_fields (h : heap) (obj : props) : bool :=
  forallb (fun kv => plain_data h kv.2) obj.

(** [v'] in [h'] is what [clone] makes of [v] in [h]: a new array or
    object with the elements or own properties of the one [v] refers to,
    or [v] itself when [v] is a primitive. *)
Definition copy_of (h h' : heap) (v v' : jsvalue) : Prop :=
  match v with
  | VRef c =>
      exists c' o,
        v' = VRef c' /\ (length h <= c')%nat /\
        h !! c = Some o /\ h' !! c' = Some (shallow_copy o)
  | _ => v' = v
  end.

(** The values two levels down in an object with the fields [obj]: the
    elements and fields of the arrays and objects that [obj] holds. *)
Definition nested_twice (h : heap) (obj : props) (x : jsvalue) : Prop :=
  exists c o, VRef c ∈ map snd obj /\ h !! c = Some o /\ x ∈ contents o.

(** Later mutations by the caller: each replaces what one object holds. *)
Definition writes (ws : list (loc * object)) (h : heap) : heap :=
  fold_left (fun h w => <[w.1 := w.2]> h) ws h.

(** The caller renames [I.name] and pushes onto [I.tags]. *)
Definition shallow_writes : list (loc * object) :=
  [ (2, OPlain [("name", VStr "John"); ("tags", VRef 1)]);
    (1, OArray [VRef 0; VNull]) ].

(** [{ when: new Date(0) }] at location 1. *)
Definition dated_heap : heap :=
  [ OExotic "Date" [VNum 0] [];
    OPlain [("when", VRef 0)] ].

Definition dated_config : FormConfig :=
  {| initialValues := VRef 1; onSubmit := None;
     validateOnBlur := false; validateOnChange := false;
     validateOnFocus := false; validateOnInput := false;
     validationSchema := None |}.

(** The caller sets [I.tags[0].id = 2]. *)
Definition nested_write : list (loc * object) :=
  [ (0, OPlain [("id", VNum 2)]) ].

(** ** The clone helper on its own *)

(** [{ ...obj }] with every value replaced by [d]. *)
Definition overridden (d : jsvalue) (obj : props) : props :=
  map (fun kv => (kv.1, d)) obj.

(** The holder of the clone of [I] changes the clone's own array and the
    clone itself (locations 3 and 4 after [clone] on [sample_heap]). *)
Definition clone_writes : list (loc * object) :=
  [ (3, OArray []);
    (4, OPlain [("name", VStr "Jane")]) ].

(** ** What the container owns *)

Definition plain_at (h : heap) (l : loc) : Prop :=
  exists fs, h !! l = Some (OPlain fs).

(** The object at [l] is a plain object allocated after the first [base]
    objects of the heap. *)
Definition owned_at (base : nat) (h : heap) (l : loc) : Prop :=
  (base <= l)%nat /\ plain_at h l.

(** The objects of [h0], the heap [newForm] was called in, are as they
    were, and each store holds a plain object allocated since. *)
Definition owned (h0 : heap) (st : Form) : Prop :=
  h0 `prefix_of` mem st /\
  owned_at (length h0) (mem st) (values st) /\
  owned_at (length h0) (mem st) (__initialValues st) /\
  owned_at (length h0) (mem st) (__errors st) /\
  owned_at (length h0) (mem st) (__touched st).

(** A callback that writes into its argument and calls both helpers, and a
    session that hands a caller's object to [setInitialValues], resets and
    submits. *)
Definition busy_callback : Callback :=
  fun _ _ =>
    ([AssignValues "name" (VStr "scrubbed");
      CallSetFieldValue "tags" VNull;
      AssignValues "extra" (VNum 1);
      CallSetFieldError "name" (VStr "taken")], None).

Definition busy_config : FormConfig :=
  {| initialValues := VRef 2; onSubmit := Some busy_callback;
     validateOnBlur := true; validateOnChange := true;
     validateOnFocus := false; validateOnInput := false;
     validationSchema := Some failing_schema |}.

Definition busy_ops : list operation :=
  [ SetInitialValues (VRef 2);
    Reset;
    SetFieldValue "name" (VStr "y") false;
    HandleSubmit None;
    Reset;
    HandleSubmit (Some click);
    SetFieldTouched "name" (VStr "yes");
    SetInitialValues VNull;
    SetInitialValues (VRef 1);
    ClearErrors ].

(** ** Single stores *)

(** Each store holds an object of the heap. *)
Definition stores_in_heap (st : Form) : Prop :=
  (values st < length (mem st))%nat /\
  (__initialValues st < length (mem st))%nat /\
  (__errors st < length (mem st))%nat /\
  (__touched st < length (mem st))%nat.

Definition is_boolean (v : jsvalue) : bool :=
  match v with
  | VBool _ => true
  | _ => false
  end.

(** ** Schemas for single fields *)

(** A schema that requires a non-empty string, as
    [Yup.string().required('You must provide the name.')] does, and reads
    nothing but the field it is asked about. *)
Definition required_verdict (field : string) (v : jsvalue) : option thrown :=
  match v with
  | VStr (String _ _) => None
  | _ =>
      Some (ThrownObject
              {| message := "You must provide the name.";
                 path := Some field;
                 errors := Some [VStr "You must provide the name."];
                 inner := None |})
  end.

Definition required_schema : Schema :=
  {| validate := fun _ _ => None;
     validateAt :=
       fun field h l => required_verdict field (get_field (props_at h l) field);
     validateSyncAt :=
       fun field h l =>
         required_verdict field (get_field (props_at h l) field) |}.

Definition required_config : FormConfig :=
  {| initialValues := VRef 2; onSubmit := Some (fun _ _ => ([], None));
     validateOnBlur := true; validateOnChange := true;
     validateOnFocus := true; validateOnInput := true;
     validationSchema := Some required_schema |}.

(** A schema whose methods throw a string. *)
Definition rude_schema : Schema :=
  {| validate := fun _ _ => Some (ThrownPrimitive (VStr "no"));
     validateAt := fun _ _ _ => Some (ThrownPrimitive (VStr "no"));
     validateSyncAt := fun _ _ _ => Some (ThrownPrimitive (VStr "no")) |}.

Definition rude_config : FormConfig :=
  {| initialValues := VRef 2; onSubmit := Some (fun _ _ => ([], None));
     validateOnBlur := true; validateOnChange := true;
     validateOnFocus := true; validateOnInput := true;
     validationSchema := Some rude_schema |}.

(** Everything but the errors and the trace is as before. *)
Definition errors_only (st st' : Form) : Prop :=
  values st' = values st /\
  props_at (mem st') (values st') = props_at (mem st) (values st) /\
  props_at (mem st') (__initialValues st')
    = props_at (mem st) (__initialValues st) /\
  props_at (mem st') (__touched st') = props_at (mem st) (__touched st) /\
  __isSubmitting st' = __isSubmitting st /\
  __isValidating st' = __isValidating st.

(** ** Events on inputs *)

Definition number_input : HTMLInputElement :=
  {| el_name := "name"; el_type := "number"; el_value := VStr "1234";
     el_files := [] |}.

Definition text_input : HTMLInputElement :=
  {| el_name := "name"; el_type := "text"; el_value := VStr "Testing!";
     el_files := [] |}.

Definition event_on (t : HTMLInputElement) : Event :=
  {| target := Some t; preventDefault := false; stopPropagation := false |}.

(** ** Errors over a submit *)

(** What the [setFieldError] calls of a callback make of an errors
    object. *)
Definition errors_after (steps : list callback_step) (fs : props) : props :=
  fold_left
    (fun fs s =>
       match s with
       | CallSetFieldError field msg => set_field fs field msg
       | _ => fs
       end)
    steps fs.

(** A form with an error left from before, and a callback that reports one
    error after writing values both ways. *)
Definition stale_form : Form := setFieldError sample_form "tags" (VStr "stale").

Definition reporting_config : FormConfig :=
  {| initialValues := VRef 2; onSubmit := Some busy_callback;
     validateOnBlur := false; validateOnChange := false;
     validateOnFocus := false; validateOnInput := false;
     validationSchema := Some required_schema |}.

(** * Properties *)

Lemma sample_form_created :
  newForm sample_heap (Some plain_config) = Created sample_form.
Proof. reflexivity. Qed.

(** ** Construction *)

(** C8. [newForm] throws its TypeError, and gives no container, when the
    configuration is absent or its [initialValues] is absent or falsy. *)
Theorem newForm_rejects_missing_config (h : heap) (config : option FormConfig) :
  (config = None \/
   exists c, config = Some c /\ falsy (initialValues c) = true) ->
  exists msg, newForm h config = Failed (TypeError msg).
Proof.
  intros [-> | (c & -> & Hfalsy)]; simpl.
  - eexists; reflexivity.
  - rewrite Hfalsy. eexists; reflexivity.
Qed.

Lemma newForm_rejects_missing_config_witness :
  (Some {| initialValues := VUndefined; onSubmit := None;
           validateOnBlur := false; validateOnChange := false;
           validateOnFocus := false; validateOnInput := false;
           validationSchema := None |} = None \/
   exists c,
     Some {| initialValues := VUndefined; onSubmit := None;
             validateOnBlur := false; validateOnChange := false;
             validateOnFocus := false; validateOnInput := false;
             validationSchema := None |} = Some c /\
     falsy (initialValues c) = true) /\
  exists msg,
    newForm sample_heap
      (Some {| initialValues := VUndefined; onSubmit := None;
               validateOnBlur := false; validateOnChange := false;
               validateOnFocus := false; validateOnInput := false;
               validationSchema := None |})
    = Failed (TypeError msg).
Proof.
  assert (Hhyp :
    Some {| initialValues := VUndefined; onSubmit := None;
            validateOnBlur := false; validateOnChange := false;
            validateOnFocus := false; validateOnInput := false;
            validationSchema := None |} = None \/
    exists c,
      Some {| initialValues := VUndefined; onSubmit := None;
              validateOnBlur := false; validateOnChange := false;
              validateOnFocus := false; validateOnInput := false;
              validationSchema := None |} = Some c /\
      falsy (initialValues c) = true).
  { right. eexists. split; reflexivity. }
  split; [exact Hhyp |].
  exact (newForm_rejects_missing_config sample_heap _ Hhyp).
Defined.

(** ** Value coercion *)

(** C6. On the input of the repository's own test for type "file",
    [getInputValue] returns the [value] property, here [undefined], and not
    the two selected files. *)
Theorem getInputValue_file_returns_value (ToNumber : jsvalue -> jsvalue) :
  length (el_files two_files_input) = 2 /\
  getInputValue ToNumber two_files_input = VUndefined.
Proof. split; reflexivity. Qed.

(** Whatever files are selected, the "file" type takes the fallback. *)
Lemma getInputValue_file_fallback (ToNumber : jsvalue -> jsvalue)
    (inputElement : HTMLInputElement) :
  el_type inputElement = "file" ->
  getInputValue ToNumber inputElement = el_value inputElement.
Proof. unfold getInputValue. intros ->. reflexivity. Qed.

(** ** Field validation *)

(** C10. Without a validation schema both field validators return normally
    and change nothing of the container: reading the method of the missing
    schema raises a TypeError inside the [try], and the [catch] logs it as a
    malformed validation error. *)
Theorem validateField_without_schema (config : FormConfig) (st : Form)
    (field : string) :
  validationSchema config = None ->
  validateField config st field = (emit missing_log st, Normal) /\
  validateFieldSync config st field = (emit missing_log st, Normal) /\
  unchanged st (emit missing_log st).
Proof.
  intros Hnone.
  unfold validateField, validateFieldSync, call_schema.
  rewrite Hnone. simpl.
  repeat split.
Qed.

Lemma validateField_without_schema_witness :
  validationSchema plain_config = None /\
  validateField plain_config sample_form "name"
    = (emit missing_log sample_form, Normal) /\
  validateFieldSync plain_config sample_form "name"
    = (emit missing_log sample_form, Normal) /\
  unchanged sample_form (emit missing_log sample_form).
Proof.
  split; [reflexivity |].
  apply (validateField_without_schema plain_config sample_form "name").
  reflexivity.
Defined.

(** C9, as stated, fails: an error with a path and an empty [errors] list
    lacks a path together with a non-empty list, yet it is not logged and
    the errors store is replaced, the field going from [null] to
    [undefined]. *)
Lemma empty_errors_list_updates_store :
  has_path_and_messages (ThrownObject empty_errors_error) = false /\
  call_schema empty_errors_config
    (fun s => validateSyncAt s "name" (mem sample_form) (values sample_form))
    = Some (ThrownObject empty_errors_error) /\
  (validateFieldSync empty_errors_config sample_form "name").2 = Normal /\
  trace (validateFieldSync empty_errors_config sample_form "name").1 = [] /\
  __errors (validateFieldSync empty_errors_config sample_form "name").1
    <> __errors sample_form /\
  get_field (props_at (mem sample_form) (__errors sample_form)) "name"
    = VNull /\
  get_field
    (props_at (mem (validateFieldSync empty_errors_config sample_form "name").1)
       (__errors (validateFieldSync empty_errors_config sample_form "name").1))
    "name" = VUndefined.
Proof. repeat split; try reflexivity. vm_compute. discriminate. Qed.

(** C9, amended. A thrown object without a [path] property, or whose
    [errors] is not an array, is logged and otherwise ignored by
    [validateField] and [validateFieldSync]: nothing of the container
    changes and the call returns normally. *)
Theorem malformed_validation_error_ignored (config : FormConfig) (st : Form)
    (field : string) (e : ErrorObject) :
  path e = None \/ errors e = None ->
  (call_schema config
     (fun s => validateAt s field (mem st) (values st))
     = Some (ThrownObject e) ->
   validateField config st field = (emit missing_log st, Normal)) /\
  (call_schema config
     (fun s => validateSyncAt s field (mem st) (values st))
     = Some (ThrownObject e) ->
   validateFieldSync config st field = (emit missing_log st, Normal)) /\
  unchanged st (emit missing_log st).
Proof.
  intros Hshape.
  assert (Hlog : setYupValidationErrors st (ThrownObject e)
                 = (emit missing_log st, Normal)).
  { unfold setYupValidationErrors.
    destruct Hshape as [-> | ->]; [reflexivity |].
    destruct (path e); reflexivity. }
  split; [| split].
  - intros Hcall. unfold validateField. rewrite Hcall. exact Hlog.
  - intros Hcall. unfold validateFieldSync. rewrite Hcall. exact Hlog.
  - repeat split.
Qed.

Lemma malformed_validation_error_ignored_witness :
  (path pathless_error = None \/ errors pathless_error = None) /\
  validateField pathless_config sample_form "name"
    = (emit missing_log sample_form, Normal) /\
  validateFieldSync pathless_config sample_form "name"
    = (emit missing_log sample_form, Normal).
Proof.
  split; [left; reflexivity |].
  destruct (malformed_validation_error_ignored pathless_config sample_form
              "name" pathless_error (or_introl eq_refl)) as (Ha & Hs & _).
  split; [apply Ha | apply Hs]; reflexivity.
Defined.

(** ** Plain objects *)

Lemma get_set_field (fs : props) (k k' : string) (v : jsvalue) :
  get_field (set_field fs k v) k'
  = if String.eqb k k' then v else get_field fs k'.
Proof.
  induction fs as [| [k0 v0] fs IH]; simpl.
  - destruct (String.eqb k k'); reflexivity.
  - destruct (String.eqb k0 k) eqn:E0; simpl.
    + apply String.eqb_eq in E0. subst k0.
      destruct (String.eqb k k'); reflexivity.
    + destruct (String.eqb k0 k') eqn:E1.
      * apply String.eqb_eq in E1. subst k0.
        rewrite String.eqb_sym in E0. rewrite E0. reflexivity.
      * exact IH.
Qed.

Lemma elem_of_keys_set_field (fs : props) (k k' : string) (v : jsvalue) :
  k' ∈ keys (set_field fs k v) <-> k' ∈ keys fs \/ k' = k.
Proof.
  unfold keys. induction fs as [| [k0 v0] fs IH]; simpl.
  - rewrite list_elem_of_singleton, elem_of_nil. tauto.
  - destruct (String.eqb k0 k) eqn:E0; simpl.
    + apply String.eqb_eq in E0. subst k0. rewrite !elem_of_cons. tauto.
    + rewrite !elem_of_cons, IH. tauto.
Qed.

Lemma fold_set_field_get (l : list InnerError) (acc : props) (p : string) :
  get_field
    (fold_left
       (fun acc e => set_field acc (inner_path e) (inner_message e)) l acc) p
  = from_option id (get_field acc p) (last_message p l).
Proof.
  revert acc. induction l as [| e l IH]; intros acc; simpl; [reflexivity |].
  rewrite IH, get_set_field.
  destruct (last_message p l); simpl; [reflexivity |].
  destruct (String.eqb (inner_path e) p); reflexivity.
Qed.

Lemma fold_set_field_keys (l : list InnerError) (acc : props) (p : string) :
  p ∈ keys
        (fold_left
           (fun acc e => set_field acc (inner_path e) (inner_message e)) l acc)
  <-> p ∈ keys acc \/ exists e, e ∈ l /\ inner_path e = p.
Proof.
  revert acc. induction l as [| e l IH]; intros acc; simpl.
  - split; [tauto |]. intros [H | (e & He & _)]; [done |].
    by apply elem_of_nil in He.
  - rewrite IH, elem_of_keys_set_field. split.
    + intros [[H | ->] | (e' & He' & Hp)]; eauto.
      * right. exists e. split; [left | reflexivity].
      * right. exists e'. split; [by right | done].
    + intros [H | (e' & He' & Hp)]; [by left; left |].
      apply elem_of_cons in He' as [-> | He']; [left; right; done |].
      right. eauto.
Qed.

(** ** The heap under allocation *)

Lemma lookup_alloc (h : heap) (o : object) :
  (alloc h o).1 !! (alloc h o).2 = Some o.
Proof. unfold alloc. simpl. by apply list_lookup_middle. Qed.

Lemma props_at_alloc (h : heap) (fs : props) :
  props_at (alloc h (OPlain fs)).1 (alloc h (OPlain fs)).2 = fs.
Proof. unfold props_at. by rewrite lookup_alloc. Qed.

(** ** Submit *)

Lemma stop_event_spec (st : Form) (event : option Event) :
  unchanged st (stop_event st event) /\
  trace (stop_event st event) = trace st ++ announced event.
Proof.
  unfold stop_event, announced.
  destruct (from_option preventDefault false event),
    (from_option stopPropagation false event);
    simpl; rewrite ?app_nil_r, <- ?app_assoc; repeat split.
Qed.

Lemma clearErrors_congr (st st' : Form) :
  unchanged st st' ->
  mem (clearErrors st') = mem (clearErrors st) /\
  __errors (clearErrors st') = __errors (clearErrors st).
Proof.
  intros (Hm & Hi & _). unfold clearErrors. simpl. rewrite Hm, Hi. done.
Qed.

(** C1. When the schema's whole-object validation throws an error with an
    [inner] list, [handleSubmit] returns normally without calling
    [onSubmit] (the trace gains only the calls on the event), and the errors
    store holds the object built from the list: a key for every path that
    failed, each with the message of the last failure for that path. *)
Theorem handleSubmit_validation_failure (config : FormConfig) (st : Form)
    (event : option Event) (callback : Callback) (schema : Schema)
    (error : thrown) (inner_errors : list InnerError) :
  onSubmit config = Some callback ->
  validationSchema config = Some schema ->
  validate schema (mem (clearErrors st)) (values st) = Some error ->
  inner_of error = Some inner_errors ->
  (handleSubmit config st event).2 = Normal /\
  trace (handleSubmit config st event).1 = trace st ++ announced event /\
  (forall l, OnSubmit l ∉ announced event) /\
  values (handleSubmit config st event).1 = values st /\
  props_at (mem (handleSubmit config st event).1)
    (__errors (handleSubmit config st event).1)
    = validationErrors_of inner_errors /\
  (forall p,
     p ∈ keys (validationErrors_of inner_errors)
     <-> exists e, e ∈ inner_errors /\ inner_path e = p) /\
  (forall p,
     get_field (validationErrors_of inner_errors) p
     = from_option id VUndefined (last_message p inner_errors)).
Proof.
  intros Hcb Hschema Hval Hinner.
  destruct (stop_event_spec st event) as [Hsame Htrace].
  destruct (clearErrors_congr _ _ Hsame) as [Hmem _].
  destruct Hsame as (_ & _ & _ & _ & _ & _ & Hvalues).
  unfold handleSubmit, validate_values. rewrite Hcb, Hschema.
  cbn [mem set___isSubmitting set___isValidating].
  rewrite Hmem, Hvalues, Hval, Hinner.
  cbn [fst snd mem set___isSubmitting set___isValidating set___errors
       __errors trace values].
  split; [reflexivity |]. split; [exact Htrace |]. split.
  { intros l. unfold announced.
    destruct (from_option preventDefault false event),
      (from_option stopPropagation false event); simpl;
      rewrite ?elem_of_cons, elem_of_nil; intuition discriminate. }
  split; [exact Hvalues |]. split; [apply props_at_alloc |]. split.
  - intros p. unfold validationErrors_of. rewrite fold_set_field_keys.
    split; [intros [H | H]; [by apply elem_of_nil in H | done] | by right].
  - intros p. unfold validationErrors_of. apply fold_set_field_get.
Qed.

Lemma handleSubmit_validation_failure_witness :
  (handleSubmit failing_config sample_form (Some click)).2 = Normal /\
  trace (handleSubmit failing_config sample_form (Some click)).1
    = [PreventDefault; StopPropagation] /\
  props_at (mem (handleSubmit failing_config sample_form (Some click)).1)
    (__errors (handleSubmit failing_config sample_form (Some click)).1)
    = [("name", VStr "not a name"); ("tags", VStr "required")].
Proof.
  destruct (handleSubmit_validation_failure failing_config sample_form
              (Some click) scrubbing_callback failing_schema
              (ThrownObject failing_error) failing_inner
              eq_refl eq_refl eq_refl eq_refl)
    as (Hc & Ht & _ & _ & He & _).
  split; [exact Hc |]. split; [exact Ht | exact He].
Defined.

(** What a callback does leaves the flags and the trace alone. *)
Lemma callback_do_frame (config : FormConfig) (l : loc) (st : Form)
    (s : callback_step) :
  __isSubmitting (callback_do config l st s) = __isSubmitting st /\
  __isValidating (callback_do config l st s) = __isValidating st /\
  trace (callback_do config l st s) = trace st.
Proof. destruct s; repeat split. Qed.

Lemma callback_steps_frame (config : FormConfig) (l : loc)
    (steps : list callback_step) (st : Form) :
  __isSubmitting (fold_left (callback_do config l) steps st)
    = __isSubmitting st /\
  __isValidating (fold_left (callback_do config l) steps st)
    = __isValidating st /\
  trace (fold_left (callback_do config l) steps st) = trace st.
Proof.
  revert st. induction steps as [| s steps IH]; intros st; simpl.
  - repeat split.
  - destruct (IH (callback_do config l st s)) as (-> & -> & ->).
    apply callback_do_frame.
Qed.

Lemma call_onSubmit_spec (config : FormConfig) (callback : Callback)
    (st : Form) (l : loc) :
  __isSubmitting (call_onSubmit config callback st l).1 = __isSubmitting st /\
  __isValidating (call_onSubmit config callback st l).1 = __isValidating st /\
  trace (call_onSubmit config callback st l).1 = trace st ++ [OnSubmit l] /\
  (call_onSubmit config callback st l).2
    = match (callback (mem st) l).2 with
      | Some t => Throw t
      | None => Normal
      end.
Proof.
  unfold call_onSubmit. simpl.
  destruct (callback (mem st) l) as [steps t]. simpl.
  destruct (callback_steps_frame config l steps (emit (OnSubmit l) st))
    as (-> & -> & ->).
  repeat split.
Qed.

Lemma validate_values_spec (st : Form) (schema : Schema) (l : loc) :
  __isSubmitting (validate_values st schema l).1 = __isSubmitting st /\
  __isValidating (validate_values st schema l).1 = false /\
  trace (validate_values st schema l).1 = trace st.
Proof.
  unfold validate_values. cbn [mem set___isValidating].
  destruct (validate schema (mem st) l) as [error |]; [| repeat split].
  destruct (inner_of error); repeat split.
Qed.

(** C2. However [handleSubmit] ends, with a return or with a throw, the
    container it leaves has [isSubmitting] false; and [isValidating] is
    false whenever validation ran, that is whenever [onSubmit] is callable
    and a schema is configured (otherwise the flag is not touched). *)
Theorem handleSubmit_clears_flags (config : FormConfig) (st : Form)
    (event : option Event) :
  __isSubmitting (handleSubmit config st event).1 = false /\
  __isValidating (handleSubmit config st event).1
    = match onSubmit config, validationSchema config with
      | Some _, Some _ => false
      | _, _ => __isValidating st
      end.
Proof.
  unfold handleSubmit.
  destruct (onSubmit config) as [callback |]; [| split; reflexivity].
  destruct (stop_event_spec st event)
    as [(_ & _ & _ & Hv & _) _].
  set (st0 := stop_event st event) in *.
  destruct (validationSchema config) as [schema |].
  - destruct (validate_values_spec
                (set___isSubmitting true (clearErrors st0)) schema
                (values st0)) as (_ & Hval & _).
    destruct (validate_values (set___isSubmitting true (clearErrors st0))
                schema (values st0)) as [st1 c] eqn:E.
    simpl in Hval.
    destruct c; simpl; [| split; [reflexivity | exact Hval] ..].
    destruct (call_onSubmit_spec config callback st1 (values st0))
      as (_ & Hv' & _).
    destruct (call_onSubmit config callback st1 (values st0)) as [st2 c2].
    simpl in *. split; [reflexivity | congruence].
  - destruct (call_onSubmit_spec config callback
                (set___isSubmitting true (clearErrors st0)) (values st0))
      as (_ & Hv' & _).
    destruct (call_onSubmit config callback
                (set___isSubmitting true (clearErrors st0)) (values st0))
      as [st2 c2].
    simpl in *. split; [reflexivity | congruence].
Qed.

(** The four ways out of a submit, on concrete forms. *)
Example handleSubmit_exit_paths :
  (handleSubmit scrubbing_config sample_form None).2 = Normal /\
  (handleSubmit failing_config sample_form None).2 = Normal /\
  (handleSubmit throwing_config sample_form None).2
    = Throw (ThrownPrimitive (VStr "offline")) /\
  (handleSubmit broken_schema_config sample_form None).2
    = Throw (ThrownObject pathless_error).
Proof. repeat split. Qed.

(** C7, as stated, fails: the object handed to [onSubmit] is the one the
    values store holds, not a copy, so an assignment the callback makes on
    its argument shows in the store, which still holds the same object. *)
Lemma onSubmit_receives_store_object :
  trace (handleSubmit scrubbing_config sample_form (Some click)).1
    = [PreventDefault; StopPropagation; OnSubmit (values sample_form)] /\
  values (handleSubmit scrubbing_config sample_form (Some click)).1
    = values sample_form /\
  get_field (props_at (mem sample_form) (values sample_form)) "name"
    = VStr "x" /\
  get_field
    (props_at (mem (handleSubmit scrubbing_config sample_form (Some click)).1)
       (values (handleSubmit scrubbing_config sample_form (Some click)).1))
    "name" = VStr "scrubbed".
Proof. repeat split. Qed.

Lemma clone_entry_prefix (d : jsvalue) (h : heap) (entry : string * jsvalue) :
  h `prefix_of` (clone_entry d h entry).1.
Proof.
  destruct entry as [field v]. unfold clone_entry.
  destruct d; simpl; try reflexivity.
  destruct v; simpl; try reflexivity.
  destruct (h !! l) as [[items | fs | cls slots fs] |]; simpl;
    try reflexivity; by apply prefix_app_r.
Qed.

Lemma clone_entries_prefix (d : jsvalue) (obj : props) (h : heap) :
  h `prefix_of` (clone_entries d h obj).1.
Proof.
  revert h. induction obj as [| entry obj IH]; intros h; simpl.
  - reflexivity.
  - pose proof (clone_entry_prefix d h entry) as H1.
    destruct (clone_entry d h entry) as [h1 entry'].
    pose proof (IH h1) as H2.
    destruct (clone_entries d h1 obj) as [h2 rest']. simpl in *.
    by etrans.
Qed.

Lemma clone_prefix (h : heap) (obj : props) (d : jsvalue) :
  h `prefix_of` (clone h obj d).1.
Proof.
  unfold clone.
  pose proof (clone_entries_prefix d obj h) as H.
  destruct (clone_entries d h obj) as [h' entries]. simpl in *.
  etrans; [exact H |]. by apply prefix_app_r.
Qed.

Lemma props_at_prefix (h h' : heap) (l : loc) :
  h `prefix_of` h' -> (l < length h)%nat -> props_at h' l = props_at h l.
Proof.
  intros Hpre Hl. unfold props_at.
  destruct (lookup_lt_is_Some_2 h l Hl) as [o Ho].
  by rewrite (prefix_lookup_Some _ _ _ _ Ho Hpre), Ho.
Qed.

(** C7, amended. With a callable [onSubmit], and when validation passes or
    no schema is configured, [handleSubmit] calls [onSubmit] exactly once,
    after the calls on the event that the event allows; the argument is the
    object the values store held when the submit started (the reference,
    no copy is made), it still has the fields it had then, and the
    submit ends as the callback does. *)
Theorem handleSubmit_calls_onSubmit_once (config : FormConfig) (st : Form)
    (event : option Event) (callback : Callback) :
  onSubmit config = Some callback ->
  validation_passes config st ->
  (values st < length (mem st))%nat ->
  trace (handleSubmit config st event).1
    = trace st ++ announced event ++ [OnSubmit (values st)] /\
  (forall l, OnSubmit l ∉ announced event) /\
  props_at (mem (clearErrors st)) (values st)
    = props_at (mem st) (values st) /\
  (handleSubmit config st event).2
    = match (callback (mem (clearErrors st)) (values st)).2 with
      | Some t => Throw t
      | None => Normal
      end.
Proof.
  intros Hcb Hpass Hvalid.
  destruct (stop_event_spec st event) as [Hsame Htrace].
  destruct (clearErrors_congr _ _ Hsame) as [Hmem _].
  destruct Hsame as (_ & _ & _ & _ & _ & _ & Hvalues).
  assert (Hannounced : forall l, OnSubmit l ∉ announced event).
  { intros l. unfold announced.
    destruct (from_option preventDefault false event),
      (from_option stopPropagation false event); simpl;
      rewrite ?elem_of_cons, elem_of_nil; intuition discriminate. }
  assert (Hkept : props_at (mem (clearErrors st)) (values st)
                  = props_at (mem st) (values st)).
  { apply props_at_prefix; [| exact Hvalid].
    unfold clearErrors. simpl. apply clone_prefix. }
  unfold handleSubmit, validation_passes in *. rewrite Hcb.
  set (st0 := stop_event st event) in *.
  assert (Hcall : forall st1,
    mem st1 = mem (clearErrors st0) -> trace st1 = trace st0 ->
    trace (call_onSubmit config callback st1 (values st)).1
      = trace st ++ announced event ++ [OnSubmit (values st)] /\
    (call_onSubmit config callback st1 (values st)).2
      = match (callback (mem (clearErrors st)) (values st)).2 with
        | Some t => Throw t
        | None => Normal
        end).
  { intros st1 Hm Ht.
    destruct (call_onSubmit_spec config callback st1 (values st))
      as (_ & _ & Htr & Hc).
    split.
    - rewrite Htr, Ht, Htrace, <- app_assoc. reflexivity.
    - rewrite Hc, Hm, Hmem. reflexivity. }
  rewrite Hvalues.
  destruct (validationSchema config) as [schema |].
  - unfold validate_values. cbn [mem set___isSubmitting set___isValidating].
    rewrite Hmem, Hpass.
    destruct (Hcall (set___isValidating false
                       (set___isValidating true
                          (set___isSubmitting true (clearErrors st0))))
                eq_refl eq_refl) as [Ht Hc].
    destruct (call_onSubmit config callback _ (values st)) as [st2 c2].
    simpl in Ht, Hc. subst c2. repeat split; try assumption.
    simpl. by destruct (callback _ _).2.
  - destruct (Hcall (set___isSubmitting true (clearErrors st0))
                eq_refl eq_refl) as [Ht Hc].
    destruct (call_onSubmit config callback _ (values st)) as [st2 c2].
    simpl in Ht, Hc. subst c2. repeat split; try assumption.
    simpl. by destruct (callback _ _).2.
Qed.

Lemma handleSubmit_calls_onSubmit_once_witness :
  validation_passes scrubbing_config sample_form /\
  (values sample_form < length (mem sample_form))%nat /\
  trace (handleSubmit scrubbing_config sample_form (Some click)).1
    = [PreventDefault; StopPropagation; OnSubmit 7] /\
  (handleSubmit scrubbing_config sample_form (Some click)).2 = Normal.
Proof.
  assert (Hpass : validation_passes scrubbing_config sample_form)
    by exact I.
  assert (Hvalid : (values sample_form < length (mem sample_form))%nat)
    by (vm_compute; lia).
  destruct (handleSubmit_calls_onSubmit_once scrubbing_config sample_form
              (Some click) scrubbing_callback eq_refl Hpass Hvalid)
    as (Ht & _ & _ & Hc).
  split; [exact Hpass |]. split; [exact Hvalid |].
  split; [exact Ht | exact Hc].
Defined.

(** ** Reset *)

(** [reset] touches the values store only, and what it stores is the
    reference the initial-values store holds. *)
Lemma reset_frame (st : Form) :
  values (reset st) = __initialValues st /\
  mem (reset st) = mem st /\
  trace (reset st) = trace st /\
  __initialValues (reset st) = __initialValues st /\
  __errors (reset st) = __errors st /\
  __touched (reset st) = __touched st /\
  __isSubmitting (reset st) = __isSubmitting st /\
  __isValidating (reset st) = __isValidating st.
Proof. repeat split. Qed.

(** C5. After [newForm] the values and the initial values are two objects,
    and an assignment on the values object leaves the initial values as
    they were. After [reset] the two stores hold one object: no copy was
    made, and the same assignment now changes the initial values too. *)
Theorem reset_aliases_initialValues :
  values sample_form <> __initialValues sample_form /\
  get_field
    (props_at
       (assign (mem sample_form) (values sample_form) "name" (VStr "typed"))
       (__initialValues sample_form))
    "name" = VStr "x" /\
  values (reset sample_form) = __initialValues (reset sample_form) /\
  get_field
    (props_at
       (assign (mem (reset sample_form)) (values (reset sample_form))
          "name" (VStr "typed"))
       (__initialValues (reset sample_form)))
    "name" = VStr "typed".
Proof. repeat split. vm_compute. discriminate. Qed.

(** ** Key sets *)

Lemma grows_refl (K : list string) (h : heap) : grows K h h.
Proof. split; [lia |]. intros l x _. split; [done | by left]. Qed.

Lemma grows_trans (K : list string) (h1 h2 h3 : heap) :
  grows K h1 h2 -> grows K h2 h3 -> grows K h1 h3.
Proof.
  intros [Hl1 H1] [Hl2 H2]. split; [lia |].
  intros l x Hl.
  destruct (H1 l x Hl) as [Ha Hb].
  destruct (H2 l x ltac:(lia)) as [Hc Hd].
  split; [auto |]. intros Hx. destruct (Hd Hx) as [Hx' | Hx']; auto.
Qed.

Lemma grows_prefix (K : list string) (h h' : heap) :
  h `prefix_of` h' -> grows K h h'.
Proof.
  intros Hpre. split; [by apply prefix_length |].
  intros l x Hl. rewrite (props_at_prefix h h' l Hpre Hl).
  split; [done | by left].
Qed.

Lemma grows_assign (K : list string) (h : heap) (a : loc) (k : string)
    (v : jsvalue) :
  k ∈ K -> grows K h (assign h a k v).
Proof.
  intros Hk. unfold assign.
  destruct (h !! a) as [[items | fs | cls slots fs] |] eqn:Ha; try apply grows_refl.
  split; [by rewrite length_insert |].
  intros l x Hl. unfold props_at.
  destruct (decide (l = a)) as [-> | Hne].
  - rewrite list_lookup_insert_eq by done. rewrite Ha.
    rewrite elem_of_keys_set_field. split; [by left |].
    intros [Hx | ->]; [by left | by right].
  - rewrite list_lookup_insert_ne by done. split; [done | by left].
Qed.

Lemma keys_at_grows (K : list string) (full : bool) (h h' : heap) (l : loc) :
  grows K h h' -> keys_at K full h l -> keys_at K full h' l.
Proof.
  intros [Hlen Hg] (Hl & Hsub & Hfull). split; [lia |]. split.
  - intros x Hx. destruct (Hg l x Hl) as [_ Hb].
    destruct (Hb Hx) as [Hx' | Hx']; [by apply Hsub | done].
  - intros Hf x Hx. destruct (Hg l x Hl) as [Ha _]. apply Ha.
    by apply Hfull.
Qed.

Lemma keys_at_alloc (K : list string) (full : bool) (h : heap) (fs : props) :
  keys fs ⊆ K -> (full = true -> K ⊆ keys fs) ->
  keys_at K full (alloc h (OPlain fs)).1 (alloc h (OPlain fs)).2.
Proof.
  intros Hsub Hfull. unfold keys_at. rewrite props_at_alloc.
  split; [| done]. unfold alloc. simpl. rewrite length_app. simpl. lia.
Qed.

Lemma clone_entries_keys (d : jsvalue) (obj : props) (h : heap) :
  keys (clone_entries d h obj).2 = keys obj.
Proof.
  revert h. induction obj as [| [k v] obj IH]; intros h; [reflexivity |].
  cbn [clone_entries].
  assert (Hk : (clone_entry d h (k, v)).2.1 = k).
  { unfold clone_entry. destruct d; try reflexivity.
    destruct v; try reflexivity.
    destruct (h !! l) as [[items | fs | cls slots fs] |]; reflexivity. }
  destruct (clone_entry d h (k, v)) as [h1 [k' v']]. simpl in Hk. subst k'.
  specialize (IH h1).
  destruct (clone_entries d h1 obj) as [h2 rest']. unfold keys in *.
  simpl in *. by f_equal.
Qed.

Lemma props_at_clone (h : heap) (obj : props) (d : jsvalue) :
  props_at (clone h obj d).1 (clone h obj d).2 = (clone_entries d h obj).2.
Proof.
  unfold clone. destruct (clone_entries d h obj) as [h' entries].
  apply props_at_alloc.
Qed.

Lemma keys_at_clone (K : list string) (full : bool) (h : heap) (obj : props)
    (d : jsvalue) :
  keys obj ⊆ K -> (full = true -> K ⊆ keys obj) ->
  keys_at K full (clone h obj d).1 (clone h obj d).2.
Proof.
  intros Hsub Hfull. unfold keys_at.
  rewrite props_at_clone, clone_entries_keys. split; [| done].
  unfold clone. destruct (clone_entries d h obj) as [h' entries].
  unfold alloc. simpl. rewrite length_app. simpl. lia.
Qed.

Ltac key_stores :=
  unfold key_inv; simpl;
  split; [| split; [| split]]; eauto using keys_at_grows.

(** Replacing what a store holds. *)
Lemma key_inv_set_errors (K : list string) (st : Form) (hl : heap * loc) :
  key_inv K st -> grows K (mem st) hl.1 -> keys_at K false hl.1 hl.2 ->
  key_inv K (set___errors hl st).
Proof.
  intros (Hv & Hi & He & Ht) Hg Hnew. key_stores.
Qed.

Lemma key_inv_set_touched (K : list string) (st : Form) (hl : heap * loc) :
  key_inv K st -> grows K (mem st) hl.1 -> keys_at K false hl.1 hl.2 ->
  key_inv K (set___touched hl st).
Proof.
  intros (Hv & Hi & He & Ht) Hg Hnew. key_stores.
Qed.

Lemma key_inv_set_values (K : list string) (st : Form) (hl : heap * loc) :
  key_inv K st -> grows K (mem st) hl.1 -> keys_at K true hl.1 hl.2 ->
  key_inv K (set_values hl st).
Proof.
  intros (Hv & Hi & He & Ht) Hg Hnew. key_stores.
Qed.

Lemma key_inv_set_initialValues (K : list string) (st : Form)
    (hl : heap * loc) :
  key_inv K st -> grows K (mem st) hl.1 -> keys_at K true hl.1 hl.2 ->
  key_inv K (set___initialValues hl st).
Proof.
  intros (Hv & Hi & He & Ht) Hg Hnew. key_stores.
Qed.

Lemma key_inv_with_mem (K : list string) (st : Form) (h' : heap) :
  key_inv K st -> grows K (mem st) h' -> key_inv K (with_mem h' st).
Proof.
  intros (Hv & Hi & He & Ht) Hg. key_stores.
Qed.

Lemma keys_set_field_within (K : list string) (fs : props) (k : string)
    (v : jsvalue) :
  k ∈ K -> keys fs ⊆ K -> keys (set_field fs k v) ⊆ K.
Proof.
  intros Hk Hsub x Hx. apply elem_of_keys_set_field in Hx as [Hx | ->];
    [by apply Hsub | done].
Qed.

Lemma keys_set_field_full (K : list string) (fs : props) (k : string)
    (v : jsvalue) :
  K ⊆ keys fs -> K ⊆ keys (set_field fs k v).
Proof. intros Hsub x Hx. apply elem_of_keys_set_field. left. by apply Hsub. Qed.

Lemma grows_alloc (K : list string) (h : heap) (o : object) :
  grows K h (alloc h o).1.
Proof. apply grows_prefix. unfold alloc. simpl. by apply prefix_app_r. Qed.

Lemma grows_clone (K : list string) (h : heap) (obj : props) (d : jsvalue) :
  grows K h (clone h obj d).1.
Proof. apply grows_prefix, clone_prefix. Qed.

Lemma clearErrors_key_inv (K : list string) (st : Form) :
  key_inv K st -> key_inv K (clearErrors st).
Proof.
  intros Hinv. unfold clearErrors.
  apply key_inv_set_errors; [done | apply grows_clone |].
  destruct Hinv as (_ & (_ & Hsub & _) & _).
  by apply keys_at_clone.
Qed.

Lemma setFieldError_key_inv (K : list string) (st : Form) (field : string)
    (msg : jsvalue) :
  field ∈ K -> key_inv K st -> key_inv K (setFieldError st field msg).
Proof.
  intros Hf Hinv. unfold setFieldError.
  apply key_inv_set_errors; [done | apply grows_alloc |].
  destruct Hinv as (_ & _ & (_ & Hsub & _) & _).
  apply keys_at_alloc; [by apply keys_set_field_within | done].
Qed.

Lemma setFieldTouched_key_inv (K : list string) (st : Form) (field : string)
    (value : jsvalue) :
  field ∈ K -> key_inv K st -> key_inv K (setFieldTouched st field value).1.
Proof.
  intros Hf Hinv. unfold setFieldTouched.
  assert (Hset : forall b,
    key_inv K
      (set___touched
         (alloc (mem st)
            (OPlain (set_field (props_at (mem st) (__touched st)) field
                       (VBool b)))) st)).
  { intros b. apply key_inv_set_touched; [done | apply grows_alloc |].
    destruct Hinv as (_ & _ & _ & (_ & Hsub & _)).
    apply keys_at_alloc; [by apply keys_set_field_within | done]. }
  destruct value; simpl; auto.
Qed.

Lemma setInitialValues_key_inv (K : list string) (st : Form) (v : jsvalue) :
  op_within K st (SetInitialValues v) -> key_inv K st ->
  key_inv K (setInitialValues st v).1.
Proof.
  intros Hop Hinv. unfold setInitialValues. simpl in Hop.
  destruct (own_props (mem st) v) as [obj |]; simpl; [| done].
  destruct (Hop obj eq_refl) as [Hsub Hfull].
  apply key_inv_set_initialValues; [done | apply grows_clone |].
  by apply keys_at_clone.
Qed.

Lemma key_inv_emit (K : list string) (st : Form) (e : effect) :
  key_inv K st -> key_inv K (emit e st).
Proof. intros H. exact H. Qed.

Section KeySets.

Variable ToNumber : jsvalue -> jsvalue.
Variable config : FormConfig.
Variable K : list string.
Hypothesis Hconfig : config_within K config.

Lemma setYupValidationErrors_key_inv (st : Form) (error : thrown) :
  (forall e p,
     error = ThrownObject e -> path e = Some p -> is_Some (errors e) ->
     p ∈ K) ->
  key_inv K st -> key_inv K (setYupValidationErrors st error).1.
Proof.
  intros Hpath Hinv. unfold setYupValidationErrors.
  destruct error as [v | e]; [done |].
  destruct (path e) as [p |] eqn:Hp; [| done].
  destruct (errors e) as [messages |] eqn:He; [| done].
  simpl. apply setFieldError_key_inv; [| done].
  apply (Hpath e p eq_refl Hp). by exists messages.
Qed.

Lemma call_schema_within (st : Form) (field : string) (error : thrown)
    (m : Schema -> string -> heap -> loc -> option thrown) :
  (forall schema f h l e p,
     validationSchema config = Some schema ->
     m schema f h l = Some (ThrownObject e) ->
     path e = Some p -> is_Some (errors e) -> p ∈ K) ->
  call_schema config (fun s => m s field (mem st) (values st)) = Some error ->
  forall e p,
    error = ThrownObject e -> path e = Some p -> is_Some (errors e) -> p ∈ K.
Proof.
  intros Hm Hcall e p -> Hp He. unfold call_schema in Hcall.
  destruct (validationSchema config) as [schema |] eqn:Hs.
  - eapply Hm; eauto.
  - injection Hcall as <-. discriminate.
Qed.

Lemma validateField_key_inv (st : Form) (field : string) :
  field ∈ K -> key_inv K st -> key_inv K (validateField config st field).1.
Proof.
  intros Hf Hinv. unfold validateField.
  destruct (call_schema config _) as [error |] eqn:Hcall.
  - apply setYupValidationErrors_key_inv; [| done].
    eapply (call_schema_within st field error validateAt); [| exact Hcall].
    intros schema f h l e p Hs. destruct Hconfig as [_ Hsch].
    destruct (Hsch schema Hs) as (_ & Hat & _). apply Hat.
  - simpl. by apply setFieldError_key_inv.
Qed.

Lemma validateFieldSync_key_inv (st : Form) (field : string) :
  field ∈ K -> key_inv K st ->
  key_inv K (validateFieldSync config st field).1.
Proof.
  intros Hf Hinv. unfold validateFieldSync.
  destruct (call_schema config _) as [error |] eqn:Hcall.
  - apply setYupValidationErrors_key_inv; [| done].
    eapply (call_schema_within st field error validateSyncAt);
      [| exact Hcall].
    intros schema f h l e p Hs. destruct Hconfig as [_ Hsch].
    destruct (Hsch schema Hs) as (_ & _ & Hsync). apply Hsync.
  - simpl. by apply (setFieldError_key_inv K st field VUndefined).
Qed.

Lemma setFieldValue_key_inv (st : Form) (field : string) (value : jsvalue)
    (b : bool) :
  field ∈ K -> key_inv K st ->
  key_inv K (setFieldValue config st field value b).1.
Proof.
  intros Hf Hinv. unfold setFieldValue.
  assert (Hset :
    key_inv K
      (set_values
         (alloc (mem st)
            (OPlain (set_field (props_at (mem st) (values st)) field value)))
         st)).
  { apply key_inv_set_values; [done | apply grows_alloc |].
    destruct Hinv as ((_ & Hsub & Hfull) & _).
    apply keys_at_alloc;
      [by apply keys_set_field_within
      | intros _; by apply keys_set_field_full, Hfull]. }
  destruct (b && _); [by apply validateFieldSync_key_inv | done].
Qed.

Lemma handleBlur_key_inv (st : Form) (event : Event) :
  op_within K st (HandleBlur event) -> key_inv K st ->
  key_inv K (handleBlur config st event).1.
Proof.
  intros Hop Hinv. unfold handleBlur. simpl in Hop.
  destruct (target event) as [t |]; [| done].
  specialize (Hop t eq_refl).
  pose proof (setFieldTouched_key_inv K st (el_name t) VUndefined Hop Hinv)
    as Ht.
  destruct (setFieldTouched st (el_name t) VUndefined) as [st1 c].
  destruct c; [| done ..].
  destruct (validateOnBlur config); [| done].
  by apply validateField_key_inv.
Qed.

Lemma handleFocus_key_inv (st : Form) (event : Event) :
  op_within K st (HandleFocus event) -> key_inv K st ->
  key_inv K (handleFocus config st event).1.
Proof.
  intros Hop Hinv. unfold handleFocus. simpl in Hop.
  destruct (target event) as [t |]; [| done].
  specialize (Hop t eq_refl).
  pose proof (setFieldTouched_key_inv K st (el_name t) VUndefined Hop Hinv)
    as Ht.
  destruct (setFieldTouched st (el_name t) VUndefined) as [st1 c].
  destruct c; [| done ..].
  destruct (validateOnFocus config); [| done].
  by apply validateField_key_inv.
Qed.

Lemma handleChange_key_inv (st : Form) (event : Event) :
  op_within K st (HandleChange event) -> key_inv K st ->
  key_inv K (handleChange ToNumber config st event).1.
Proof.
  intros Hop Hinv. unfold handleChange. simpl in Hop.
  destruct (target event) as [t |]; [| done].
  apply setFieldValue_key_inv; auto.
Qed.

Lemma handleInput_key_inv (st : Form) (event : Event) :
  op_within K st (HandleInput event) -> key_inv K st ->
  key_inv K (handleInput ToNumber config st event).1.
Proof.
  intros Hop Hinv. unfold handleInput. simpl in Hop.
  destruct (target event) as [t |]; [| done].
  apply setFieldValue_key_inv; auto.
Qed.

Lemma callback_do_key_inv (l : loc) (st : Form) (s : callback_step) :
  step_field s ∈ K -> key_inv K st -> key_inv K (callback_do config l st s).
Proof.
  intros Hs Hinv. destruct s as [field msg | field v | field v]; simpl in *.
  - by apply setFieldError_key_inv.
  - by apply (setFieldValue_key_inv st field v false).
  - apply key_inv_with_mem; [done | by apply grows_assign].
Qed.

Lemma callback_steps_key_inv (l : loc) (steps : list callback_step)
    (st : Form) :
  (forall s, s ∈ steps -> step_field s ∈ K) ->
  key_inv K st -> key_inv K (fold_left (callback_do config l) steps st).
Proof.
  revert st. induction steps as [| s steps IH]; intros st Hsteps Hinv;
    simpl; [done |].
  apply IH.
  - intros s' Hs'. apply Hsteps. by right.
  - apply callback_do_key_inv; [apply Hsteps; by left | done].
Qed.

Lemma call_onSubmit_key_inv (callback : Callback) (st : Form) (l : loc) :
  onSubmit config = Some callback ->
  key_inv K st -> key_inv K (call_onSubmit config callback st l).1.
Proof.
  intros Hcb Hinv. unfold call_onSubmit.
  destruct Hconfig as [Hsteps _].
  specialize (Hsteps callback (mem (emit (OnSubmit l) st)) l).
  destruct (callback (mem (emit (OnSubmit l) st)) l) as [steps t].
  simpl in *. apply callback_steps_key_inv; [| done].
  intros s Hs. by apply Hsteps.
Qed.

Lemma validate_values_key_inv (st : Form) (schema : Schema) (l : loc) :
  validationSchema config = Some schema ->
  key_inv K st -> key_inv K (validate_values st schema l).1.
Proof.
  intros Hs Hinv. unfold validate_values.
  cbn [mem set___isValidating].
  destruct (validate schema (mem st) l) as [error |] eqn:Hval; [| done].
  destruct error as [v | e]; simpl; [done |].
  destruct (inner e) as [inner_errors |] eqn:Hinner; simpl; [| done].
  apply (key_inv_set_errors K
           (set___isValidating true st)
           (alloc (mem st) (OPlain (validationErrors_of inner_errors))));
    [done | apply grows_alloc |].
  apply keys_at_alloc; [| done].
  intros p Hp. unfold validationErrors_of in Hp.
  apply fold_set_field_keys in Hp as [Hp | (ie & Hie & <-)];
    [by apply elem_of_nil in Hp |].
  destruct Hconfig as [_ Hsch]. destruct (Hsch schema Hs) as (Hv & _).
  eapply Hv; eauto.
Qed.

Lemma handleSubmit_key_inv (st : Form) (event : option Event) :
  key_inv K st -> key_inv K (handleSubmit config st event).1.
Proof.
  intros Hinv. unfold handleSubmit.
  destruct (onSubmit config) as [callback |] eqn:Hcb; [| done].
  assert (H0 : key_inv K (stop_event st event)).
  { unfold stop_event.
    destruct (from_option preventDefault false event),
      (from_option stopPropagation false event); done. }
  set (st0 := stop_event st event) in *.
  assert (H1 : key_inv K (set___isSubmitting true (clearErrors st0)))
    by exact (clearErrors_key_inv K st0 H0).
  destruct (validationSchema config) as [schema |] eqn:Hs.
  - pose proof (validate_values_key_inv _ schema (values st0) Hs H1) as H2.
    destruct (validate_values _ schema (values st0)) as [st1 c].
    destruct c; [| done ..].
    pose proof (call_onSubmit_key_inv callback st1 (values st0) Hcb H2)
      as H3.
    by destruct (call_onSubmit config callback st1 (values st0)).
  - pose proof (call_onSubmit_key_inv callback _ (values st0) Hcb H1) as H3.
    by destruct (call_onSubmit config callback _ (values st0)).
Qed.

Lemma step_key_inv (st : Form) (op : operation) :
  op_within K st op -> key_inv K st ->
  key_inv K (step ToNumber config st op).1.
Proof.
  intros Hop Hinv. destruct op; simpl.
  - by apply clearErrors_key_inv.
  - by apply handleBlur_key_inv.
  - by apply handleChange_key_inv.
  - by apply handleFocus_key_inv.
  - by apply handleInput_key_inv.
  - by apply handleSubmit_key_inv.
  - destruct Hinv as (Hv & Hi & He & Ht). unfold reset. key_stores.
  - by apply setInitialValues_key_inv.
  - by apply setFieldError_key_inv.
  - by apply setFieldTouched_key_inv.
  - by apply setFieldValue_key_inv.
  - by apply validateField_key_inv.
  - by apply validateFieldSync_key_inv.
Qed.

Lemma run_key_inv (ops : list operation) (st : Form) :
  ops_within ToNumber config K st ops -> key_inv K st ->
  key_inv K (run ToNumber config ops st).
Proof.
  revert st. induction ops as [| op ops IH]; intros st Hops Hinv;
    simpl; [done |].
  destruct Hops as [Hop Hrest].
  apply IH; [done | by apply step_key_inv].
Qed.

End KeySets.

Lemma newForm_key_inv (h : heap) (config : FormConfig) (obj : props)
    (st : Form) :
  own_props h (initialValues config) = Some obj ->
  newForm h (Some config) = Created st ->
  key_inv (keys obj) st.
Proof.
  intros Hobj Hnew. unfold newForm in Hnew.
  destruct (falsy (initialValues config)); [discriminate |].
  rewrite Hobj in Hnew.
  pose proof (keys_at_clone (keys obj) true h obj VUndefined
                ltac:(done) ltac:(done)) as Hi.
  destruct (clone h obj VUndefined) as [h1 iv]. simpl in Hi.
  pose proof (keys_at_clone (keys obj) false h1 (props_at h1 iv) VNull
                ltac:(apply Hi) ltac:(done)) as He.
  pose proof (grows_clone (keys obj) h1 (props_at h1 iv) VNull) as G1.
  destruct (clone h1 (props_at h1 iv) VNull) as [h2 errs]. simpl in *.
  pose proof (keys_at_grows _ _ _ _ _ G1 Hi) as Hi2.
  pose proof (keys_at_clone (keys obj) false h2 (props_at h2 iv) (VBool false)
                ltac:(apply Hi2) ltac:(done)) as Ht.
  pose proof (grows_clone (keys obj) h2 (props_at h2 iv) (VBool false)) as G2.
  destruct (clone h2 (props_at h2 iv) (VBool false)) as [h3 tch].
  simpl in *.
  pose proof (keys_at_grows _ _ _ _ _ G2 Hi2) as Hi3.
  pose proof (keys_at_grows _ _ _ _ _ G2 He) as He3.
  pose proof (keys_at_alloc (keys obj) true h3 (props_at h3 iv)
                ltac:(apply Hi3) ltac:(intros _; by apply Hi3)) as Hv.
  pose proof (grows_alloc (keys obj) h3 (OPlain (props_at h3 iv))) as G3.
  unfold alloc in *. simpl in *.
  injection Hnew as <-. unfold key_inv. simpl.
  split; [| split; [| split]]; eauto using keys_at_grows.
Qed.

(** C3, as stated, fails: [setFieldValue] and [setFieldError] on a name that
    is not a key of the initial values add that key to the values and to the
    errors, and a blur event of an input with that name adds it to the
    touched map. *)
Lemma setFieldValue_adds_key :
  newForm sample_heap (Some plain_config) = Created sample_form /\
  keys (props_at sample_heap 2) = ["name"; "tags"] /\
  keys (props_at (mem (run test_ToNumber plain_config stray_ops sample_form))
          (values (run test_ToNumber plain_config stray_ops sample_form)))
    = ["name"; "tags"; "nick"] /\
  keys (props_at (mem (run test_ToNumber plain_config stray_ops sample_form))
          (__errors (run test_ToNumber plain_config stray_ops sample_form)))
    = ["name"; "tags"; "nick"] /\
  keys (props_at (mem (run test_ToNumber plain_config stray_ops sample_form))
          (__touched (run test_ToNumber plain_config stray_ops sample_form)))
    = ["name"; "tags"; "nick"].
Proof. repeat split. Qed.

(** C3, amended. Let [K] be the keys of the initial values given to
    [newForm]. Over every sequence of operations in which each field name
    passed in (directly, through an event target, by the [onSubmit]
    callback or as the path of a validation error) is in [K], and each
    object passed to [setInitialValues] has exactly the keys [K], the
    values keep exactly the keys [K], and the keys of the errors and of the
    touched map stay within [K]. *)
Theorem key_sets_stay_within (ToNumber : jsvalue -> jsvalue) (h : heap)
    (config : FormConfig) (obj : props) (st0 : Form)
    (ops : list operation) :
  own_props h (initialValues config) = Some obj ->
  newForm h (Some config) = Created st0 ->
  config_within (keys obj) config ->
  ops_within ToNumber config (keys obj) st0 ops ->
  keys (props_at (mem (run ToNumber config ops st0))
          (values (run ToNumber config ops st0))) ⊆ keys obj /\
  keys obj ⊆ keys (props_at (mem (run ToNumber config ops st0))
                     (values (run ToNumber config ops st0))) /\
  keys (props_at (mem (run ToNumber config ops st0))
          (__errors (run ToNumber config ops st0))) ⊆ keys obj /\
  keys (props_at (mem (run ToNumber config ops st0))
          (__touched (run ToNumber config ops st0))) ⊆ keys obj.
Proof.
  intros Hobj Hnew Hconfig Hops.
  pose proof (newForm_key_inv h config obj st0 Hobj Hnew) as Hinv0.
  destruct (run_key_inv ToNumber config (keys obj) Hconfig ops st0 Hops Hinv0)
    as ((_ & Hv & Hfull) & _ & (_ & He & _) & (_ & Ht & _)).
  auto.
Qed.

Lemma failing_config_within : config_within ["name"; "tags"] failing_config.
Proof.
  split.
  - intros callback h l s [= <-] Hs. simpl in Hs.
    repeat (apply elem_of_cons in Hs as [-> | Hs]; [simpl; repeat constructor |]).
    by apply elem_of_nil in Hs.
  - intros schema [= <-]. split; [| split].
    + intros h l e inner_errors ie [= <-] [= <-] Hie.
      repeat (apply elem_of_cons in Hie as [-> | Hie]; [simpl; repeat constructor |]).
      by apply elem_of_nil in Hie.
    + intros field h l e p [=].
    + intros field h l e p [=].
Qed.

Lemma key_sets_stay_within_witness :
  config_within ["name"; "tags"] failing_config /\
  ops_within test_ToNumber failing_config ["name"; "tags"] sample_form
    sample_ops /\
  keys (props_at
          (mem (run test_ToNumber failing_config sample_ops sample_form))
          (values (run test_ToNumber failing_config sample_ops sample_form)))
    ⊆ ["name"; "tags"].
Proof.
  assert (Hops : ops_within test_ToNumber failing_config ["name"; "tags"]
                   sample_form sample_ops).
  { simpl. split; [repeat constructor |]. split.
    { intros t [= <-]. simpl. repeat constructor. }
    split; [repeat constructor |]. split; [exact I |]. split.
    { intros obj [= <-]. split; reflexivity. }
    split; [exact I |]. split; [exact I |].
    split; [repeat constructor | exact I]. }
  split; [exact failing_config_within |]. split; [exact Hops |].
  apply (key_sets_stay_within test_ToNumber sample_heap failing_config
           (props_at sample_heap 2) sample_form sample_ops
           eq_refl eq_refl failing_config_within Hops).
Defined.

(** ** Copies *)

Lemma closed_in_heap (h : heap) (l : loc) (o : object) (v : jsvalue) :
  closed h -> h !! l = Some o -> v ∈ contents o -> in_heap h v.
Proof.
  intros Hc Hl Hv. destruct v; simpl; try done. by eapply Hc.
Qed.

Lemma snapshot_prefix (h h' : heap) (depth : nat) (v : jsvalue) :
  closed h -> h `prefix_of` h' -> in_heap h v ->
  snapshot depth h' v = snapshot depth h v.
Proof.
  intros Hc Hpre. revert v.
  induction depth as [| depth IH]; intros v Hv; destruct v; try reflexivity.
  simpl in *.
  destruct (lookup_lt_is_Some_2 h l Hv) as [o Ho].
  rewrite (prefix_lookup_Some _ _ _ _ Ho Hpre), Ho.
  destruct o as [items | fs | cls slots fs]; f_equal.
  - apply map_ext_in. intros x Hx. apply IH.
    apply (closed_in_heap h l (OArray items)); [done | done |].
    by apply list_elem_of_In.
  - apply map_ext_in. intros [k x] Hx. simpl. f_equal. apply IH.
    apply (closed_in_heap h l (OPlain fs)); [done | done |].
    simpl. apply list_elem_of_In. apply in_map_iff. by exists (k, x).
  - apply map_ext_in. intros x Hx. apply IH.
    apply (closed_in_heap h l (OExotic cls slots fs)); [done | done |].
    simpl. apply elem_of_app. left. by apply list_elem_of_In.
  - apply map_ext_in. intros [k x] Hx. simpl. f_equal. apply IH.
    apply (closed_in_heap h l (OExotic cls slots fs)); [done | done |].
    simpl. apply elem_of_app. right.
    apply list_elem_of_In. apply in_map_iff. by exists (k, x).
Qed.

Lemma reach_prefix (h h' : heap) (v : jsvalue) (a : loc) :
  closed h -> h `prefix_of` h' -> in_heap h v ->
  reach h' v a -> reach h v a.
Proof.
  intros Hc Hpre Hv Hr. induction Hr as [l | l o x l' Hl Hx Hr IH].
  - constructor.
  - simpl in Hv. destruct (lookup_lt_is_Some_2 h l Hv) as [o' Ho'].
    pose proof (prefix_lookup_Some _ _ _ _ Ho' Hpre) as Hl'.
    rewrite Hl in Hl'. injection Hl' as ->.
    eapply reach_inside; [exact Ho' | exact Hx |].
    apply IH. by eapply closed_in_heap.
Qed.

Lemma reach_in_heap (h : heap) (v : jsvalue) (a : loc) :
  closed h -> in_heap h v -> reach h v a -> (a < length h)%nat.
Proof.
  intros Hc Hv Hr. induction Hr as [l | l o x l' Hl Hx Hr IH]; [done |].
  apply IH. by eapply closed_in_heap.
Qed.

Lemma copy_of_prefix (h h1 h2 : heap) (v v' : jsvalue) :
  h1 `prefix_of` h2 -> copy_of h h1 v v' -> copy_of h h2 v v'.
Proof.
  intros Hpre. destruct v; simpl; try done.
  intros (c' & o & -> & Hc' & Ho & Ho'). exists c', o.
  repeat split; try done. by eapply prefix_lookup_Some.
Qed.

Lemma copy_of_snapshot (h h' : heap) (v v' : jsvalue) (depth : nat) :
  closed h -> h `prefix_of` h' -> plain_data h v = true ->
  copy_of h h' v v' ->
  snapshot depth h' v' = snapshot depth h v.
Proof.
  intros Hc Hpre Hdata Hcopy.
  destruct v; simpl in Hcopy; subst; try (destruct depth; reflexivity).
  destruct Hcopy as (c' & o & -> & Hc' & Ho & Ho').
  simpl in Hdata. rewrite Ho in Hdata.
  destruct depth as [| depth]; [reflexivity |]. simpl. rewrite Ho, Ho'.
  destruct o as [items | fs | cls slots fs]; [| | discriminate];
    simpl; f_equal.
  - apply map_ext_in. intros x Hx. apply snapshot_prefix; [done | done |].
    apply (closed_in_heap h l (OArray items)); [done | done |].
    by apply list_elem_of_In.
  - apply map_ext_in. intros [k x] Hx. simpl. f_equal.
    apply snapshot_prefix; [done | done |].
    apply (closed_in_heap h l (OPlain fs)); [done | done |].
    simpl. apply list_elem_of_In. apply in_map_iff. by exists (k, x).
Qed.

(** What a copy reaches is the copy itself or is reached from inside the
    original. *)
Lemma copy_of_reach (h h' : heap) (v v' : jsvalue) (a : loc) :
  closed h -> h `prefix_of` h' -> copy_of h h' v v' -> reach h' v' a ->
  (length h <= a)%nat \/
  exists c o x,
    v = VRef c /\ h !! c = Some o /\ x ∈ contents o /\ reach h x a.
Proof.
  intros Hc Hpre Hcopy Hr.
  destruct v; simpl in Hcopy; subst; try (inversion Hr; fail).
  destruct Hcopy as (c' & o & -> & Hc' & Ho & Ho').
  inversion Hr as [| ? o' x ? Hl Hx Hr']; subst; [by left |].
  rewrite Ho' in Hl. injection Hl as <-.
  assert (Hx' : x ∈ contents o).
  { destruct o as [items | fs | cls slots fs]; simpl in *; try done.
    apply elem_of_app. by right. }
  right. exists l, o, x. repeat split; try done.
  apply (reach_prefix h h'); try done. by eapply closed_in_heap.
Qed.

Lemma clone_entry_copy (h0 h : heap) (k : string) (v : jsvalue) :
  h0 `prefix_of` h -> in_heap h0 v ->
  (clone_entry VUndefined h (k, v)).2.1 = k /\
  copy_of h0 (clone_entry VUndefined h (k, v)).1
    v (clone_entry VUndefined h (k, v)).2.2.
Proof.
  intros Hpre Hv. unfold clone_entry.
  destruct v; simpl; try done.
  simpl in Hv. destruct (lookup_lt_is_Some_2 h0 l Hv) as [o Ho].
  rewrite (prefix_lookup_Some _ _ _ _ Ho Hpre).
  pose proof (prefix_length _ _ Hpre) as Hlen.
  destruct o as [items | fs | cls slots fs]; simpl; (split; [done |]);
    eexists _, _; (split; [reflexivity |]); (split; [exact Hlen |]);
    (split; [exact Ho |]); by apply list_lookup_middle.
Qed.

Lemma clone_entries_copy (h0 : heap) (obj : props) (h : heap) :
  h0 `prefix_of` h -> Forall (in_heap h0) (map snd obj) ->
  Forall2
    (fun kv kv' =>
       kv'.1 = kv.1 /\
       copy_of h0 (clone_entries VUndefined h obj).1 kv.2 kv'.2)
    obj (clone_entries VUndefined h obj).2.
Proof.
  revert h. induction obj as [| [k v] obj IH]; intros h Hpre Hobj.
  - constructor.
  - cbn [clone_entries]. simpl in Hobj.
    apply Forall_cons in Hobj as [Hv Hobj].
    destruct (clone_entry_copy h0 h k v Hpre Hv) as [Hk Hcopy].
    pose proof (clone_entry_prefix VUndefined h (k, v)) as Hp1.
    destruct (clone_entry VUndefined h (k, v)) as [h1 [k' v']].
    simpl in Hk, Hcopy, Hp1. subst k'.
    assert (Hpre1 : h0 `prefix_of` h1) by (by etrans).
    specialize (IH h1 Hpre1 Hobj).
    pose proof (clone_entries_prefix VUndefined obj h1) as Hp2.
    destruct (clone_entries VUndefined h1 obj) as [h2 rest'].
    simpl in *. constructor; [| exact IH].
    split; [done |]. by eapply copy_of_prefix.
Qed.

Lemma snapshot_insert_unreachable (h : heap) (l : loc) (o : object)
    (depth : nat) (v : jsvalue) :
  (forall a, reach h v a -> a <> l) ->
  snapshot depth (<[l := o]> h) v = snapshot depth h v.
Proof.
  revert v. induction depth as [| depth IH]; intros v Hv;
    destruct v as [| | | | | b]; try reflexivity.
  simpl. rewrite list_lookup_insert_ne by (symmetry; apply Hv; constructor).
  destruct (h !! b) as [[items | fs | cls slots fs] |] eqn:Hb;
    [| | | reflexivity]; f_equal.
  - apply map_ext_in. intros x Hx. apply IH. intros a Ha. apply Hv.
    eapply reach_inside; [exact Hb | | exact Ha].
    by apply list_elem_of_In.
  - apply map_ext_in. intros [k x] Hx. simpl. f_equal. apply IH.
    intros a Ha. apply Hv.
    eapply reach_inside; [exact Hb | | exact Ha].
    simpl. apply list_elem_of_In. apply in_map_iff. by exists (k, x).
  - apply map_ext_in. intros x Hx. apply IH. intros a Ha. apply Hv.
    eapply reach_inside; [exact Hb | | exact Ha].
    simpl. apply elem_of_app. left. by apply list_elem_of_In.
  - apply map_ext_in. intros [k x] Hx. simpl. f_equal. apply IH.
    intros a Ha. apply Hv.
    eapply reach_inside; [exact Hb | | exact Ha].
    simpl. apply elem_of_app. right.
    apply list_elem_of_In. apply in_map_iff. by exists (k, x).
Qed.

Lemma reach_insert (h : heap) (l : loc) (o : object) (v : jsvalue) (a : loc) :
  (forall a', reach h v a' -> a' <> l) ->
  reach (<[l := o]> h) v a -> reach h v a.
Proof.
  intros Hv Hr. induction Hr as [b | b o' x a Hb Hx Hr IH].
  - constructor.
  - rewrite list_lookup_insert_ne in Hb by (symmetry; apply Hv; constructor).
    eapply reach_inside; [exact Hb | exact Hx |].
    apply IH. intros a' Ha'. apply Hv.
    eapply reach_inside; [exact Hb | exact Hx | exact Ha'].
Qed.

Lemma writes_unreachable (ws : list (loc * object)) (h : heap) (v : jsvalue) :
  (forall w a, w ∈ ws -> reach h v a -> a <> w.1) ->
  deep_equal (writes ws h) v h v.
Proof.
  revert h. induction ws as [| w ws IH]; intros h Hws depth; [reflexivity |].
  simpl. rewrite IH.
  - apply snapshot_insert_unreachable. intros a Ha.
    apply (Hws w a); [by left | done].
  - intros w' a Hw' Ha. apply (Hws w' a); [by right |].
    apply (reach_insert h w.1 w.2); [| done].
    intros a' Ha'. apply (Hws w a'); [by left | done].
Qed.

(** Where [newForm] puts the copies. *)
Lemma newForm_layout (h : heap) (config : FormConfig) (lI : loc) (obj : props)
    (st : Form) :
  closed h ->
  initialValues config = VRef lI -> h !! lI = Some (OPlain obj) ->
  newForm h (Some config) = Created st ->
  exists entries,
    mem st !! values st = Some (OPlain entries) /\
    mem st !! __initialValues st = Some (OPlain entries) /\
    (length h <= values st)%nat /\
    (length h <= __initialValues st)%nat /\
    h `prefix_of` mem st /\
    Forall2
      (fun kv kv' => kv'.1 = kv.1 /\ copy_of h (mem st) kv.2 kv'.2)
      obj entries.
Proof.
  intros Hc HI Hobj Hnew. unfold newForm in Hnew. rewrite HI in Hnew.
  simpl in Hnew. unfold props_at in Hnew at 1. rewrite Hobj in Hnew.
  assert (Hin : Forall (in_heap h) (map snd obj)).
  { apply Forall_forall. intros v Hv.
    by apply (closed_in_heap h lI (OPlain obj)). }
  pose proof (clone_entries_copy h obj h ltac:(reflexivity) Hin) as Hcopy.
  pose proof (clone_entries_prefix VUndefined obj h) as Hp0.
  unfold clone in Hnew at 1.
  destruct (clone_entries VUndefined h obj) as [h' entries].
  simpl in Hcopy, Hp0. unfold alloc in Hnew at 1.
  set (h1 := h' ++ [OPlain entries]) in *.
  set (iv := length h') in *.
  assert (Hiv1 : h1 !! iv = Some (OPlain entries))
    by (by apply list_lookup_middle).
  pose proof (clone_prefix h1 (props_at h1 iv) VNull) as Hp1.
  destruct (clone h1 (props_at h1 iv) VNull) as [h2 errs]. simpl in Hp1.
  pose proof (clone_prefix h2 (props_at h2 iv) (VBool false)) as Hp2.
  destruct (clone h2 (props_at h2 iv) (VBool false)) as [h3 tch].
  simpl in Hp2. unfold alloc in Hnew. injection Hnew as <-. simpl.
  assert (Hp01 : h' `prefix_of` h1) by (by apply prefix_app_r).
  assert (Hiv3 : h3 !! iv = Some (OPlain entries)).
  { eapply prefix_lookup_Some; [| exact Hp2].
    eapply prefix_lookup_Some; [| exact Hp1]. exact Hiv1. }
  assert (Hp3 : h3 `prefix_of` h3 ++ [OPlain (props_at h3 iv)])
    by (by apply prefix_app_r).
  assert (Hpre : h `prefix_of` h3 ++ [OPlain (props_at h3 iv)]).
  { etrans; [exact Hp0 |]. etrans; [exact Hp01 |].
    etrans; [exact Hp1 |]. etrans; [exact Hp2 | exact Hp3]. }
  assert (Hpre' : h' `prefix_of` h3 ++ [OPlain (props_at h3 iv)]).
  { etrans; [exact Hp01 |].
    etrans; [exact Hp1 |]. etrans; [exact Hp2 | exact Hp3]. }
  exists entries. split; [| split; [| split; [| split; [| split]]]].
  - rewrite list_lookup_middle by done.
    unfold props_at. by rewrite Hiv3.
  - by eapply prefix_lookup_Some.
  - pose proof (prefix_length _ _ Hp0). pose proof (prefix_length _ _ Hp01).
    pose proof (prefix_length _ _ Hp1). pose proof (prefix_length _ _ Hp2).
    lia.
  - by apply prefix_length.
  - exact Hpre.
  - eapply Forall2_impl; [exact Hcopy |].
    intros kv kv' [Hk Hcp]. split; [done |]. by eapply copy_of_prefix.
Qed.

Lemma copies_snapshot (h h' : heap) (obj entries : props) (depth : nat) :
  closed h -> h `prefix_of` h' -> plain_fields h obj = true ->
  Forall2 (fun kv kv' => kv'.1 = kv.1 /\ copy_of h h' kv.2 kv'.2)
    obj entries ->
  map (fun kv => (kv.1, snapshot depth h' kv.2)) entries
  = map (fun kv => (kv.1, snapshot depth h kv.2)) obj.
Proof.
  intros Hc Hpre Hdata HF.
  induction HF as [| kv kv' obj entries [Hk Hcp] HF IH]; [reflexivity |].
  unfold plain_fields in *. simpl in Hdata.
  apply andb_true_iff in Hdata as [Hkv Hdata].
  simpl. rewrite IH, Hk by done. do 2 f_equal. by apply copy_of_snapshot.
Qed.

Lemma copies_reach (h h' : heap) (obj entries : props) (r a : loc) :
  closed h -> h `prefix_of` h' ->
  Forall2 (fun kv kv' => kv'.1 = kv.1 /\ copy_of h h' kv.2 kv'.2)
    obj entries ->
  h' !! r = Some (OPlain entries) -> (length h <= r)%nat ->
  reach h' (VRef r) a ->
  (length h <= a)%nat \/ exists x, nested_twice h obj x /\ reach h x a.
Proof.
  intros Hc Hpre HF Hr Hlen Hreach.
  inversion Hreach as [| ? o x' ? Hl Hx Hreach']; subst; [by left |].
  rewrite Hr in Hl. injection Hl as <-. simpl in Hx.
  apply list_elem_of_fmap in Hx as ([k' v'] & -> & Hkv'). simpl in *.
  apply list_elem_of_lookup in Hkv' as [i Hi].
  destruct (Forall2_lookup_r _ _ _ _ _ HF Hi) as ([k v] & Hi' & _ & Hcp).
  simpl in Hcp.
  destruct (copy_of_reach h h' v v' a Hc Hpre Hcp Hreach')
    as [Ha | (c & o & x & -> & Ho & Hx & Hrx)]; [by left |].
  right. exists x. split; [| done]. exists c, o. repeat split; try done.
  apply list_elem_of_fmap. exists (k, VRef c). split; [done |].
  by eapply list_elem_of_lookup_2.
Qed.

(** C4, as stated, fails: after [newForm], an assignment inside an element
    of [I.tags], two levels down in [I], shows in the stored values and in
    the stored initial values. *)
Lemma nested_mutation_reaches_container :
  newForm sample_heap (Some plain_config) = Created sample_form /\
  reach sample_heap (initialValues plain_config) 0 /\
  ~ deep_equal
      (writes nested_write (mem sample_form)) (VRef (values sample_form))
      (mem sample_form) (VRef (values sample_form)) /\
  ~ deep_equal
      (writes nested_write (mem sample_form))
      (VRef (__initialValues sample_form))
      (mem sample_form) (VRef (__initialValues sample_form)).
Proof.
  split; [reflexivity |]. split.
  { apply (reach_inside sample_heap 2 _ (VRef 1) 0 eq_refl);
      [simpl; repeat constructor |].
    apply (reach_inside sample_heap 1 _ (VRef 0) 0 eq_refl);
      [simpl; repeat constructor | constructor]. }
  split; intros H; specialize (H 3); vm_compute in H; discriminate.
Qed.

(** C4, amended. Right after [newForm] on a plain initial-values object [I]
    (in a heap whose references all lead somewhere), the stored values and
    the stored initial values deep-equal [I] provided every field of [I]
    holds a primitive, an array or a plain object (any other object held in
    a field is stored as a plain object with its own enumerable properties
    only); and they are not changed by any later mutations of objects of
    the caller that do not lie two or more levels down in [I]: [I] itself
    and the arrays and objects held directly in its fields, unless these
    are also nested deeper. *)
Theorem newForm_copies_one_level (h : heap) (config : FormConfig) (lI : loc)
    (obj : props) (st : Form) :
  closed h ->
  initialValues config = VRef lI -> h !! lI = Some (OPlain obj) ->
  newForm h (Some config) = Created st ->
  (plain_fields h obj = true ->
   deep_equal (mem st) (VRef (values st)) h (VRef lI) /\
   deep_equal (mem st) (VRef (__initialValues st)) h (VRef lI)) /\
  forall ws,
    (forall w, w ∈ ws ->
       (w.1 < length h)%nat /\
       forall x, nested_twice h obj x -> ~ reach h x w.1) ->
    deep_equal (writes ws (mem st)) (VRef (values st))
      (mem st) (VRef (values st)) /\
    deep_equal (writes ws (mem st)) (VRef (__initialValues st))
      (mem st) (VRef (__initialValues st)).
Proof.
  intros Hc HI Hobj Hnew.
  destruct (newForm_layout h config lI obj st Hc HI Hobj Hnew)
    as (entries & Hv & Hi & Hlv & Hli & Hpre & HF).
  assert (Heq : forall r,
    plain_fields h obj = true ->
    mem st !! r = Some (OPlain entries) ->
    deep_equal (mem st) (VRef r) h (VRef lI)).
  { intros r Hdata Hr [| depth]; [reflexivity |]. simpl. rewrite Hr, Hobj.
    f_equal. by apply copies_snapshot. }
  split; [intros Hdata; split; by apply Heq |].
  intros ws Hws.
  assert (Hkeep : forall r,
    mem st !! r = Some (OPlain entries) -> (length h <= r)%nat ->
    deep_equal (writes ws (mem st)) (VRef r) (mem st) (VRef r)).
  { intros r Hr Hlen. apply writes_unreachable. intros w a Hw Ha.
    destruct (Hws w Hw) as [Hold Hfar].
    destruct (copies_reach h (mem st) obj entries r a Hc Hpre HF Hr Hlen Ha)
      as [Hnew' | (x & Hx & Hrx)]; [lia |].
    intros ->. by apply (Hfar x). }
  split; by apply Hkeep.
Qed.

Lemma closedb_closed (h : heap) : closedb h = true -> closed h.
Proof.
  unfold closedb, closed. intros Hb l o l' Hl Hl'.
  rewrite forallb_forall in Hb.
  specialize (Hb o ltac:(apply list_elem_of_In; by eapply list_elem_of_lookup_2)).
  rewrite forallb_forall in Hb.
  specialize (Hb (VRef l') ltac:(by apply list_elem_of_In)).
  by apply Nat.ltb_lt in Hb.
Qed.

(** In the sample heap only the element of [I.tags] lies two levels down. *)
Lemma sample_nested_twice (x : jsvalue) (a : loc) :
  nested_twice sample_heap (props_at sample_heap 2) x ->
  reach sample_heap x a -> a = 0%nat.
Proof.
  intros (c & o & Hc & Ho & Hx) Hr. simpl in Hc.
  apply elem_of_cons in Hc as [[=] | Hc].
  apply elem_of_cons in Hc as [[= ->] | Hc]; [| by apply elem_of_nil in Hc].
  injection Ho as <-. simpl in Hx.
  apply elem_of_cons in Hx as [-> | Hx]; [| by apply elem_of_nil in Hx].
  inversion Hr as [| ? o y ? Hl Hy Hr']; subst; [reflexivity |].
  injection Hl as <-. simpl in Hy.
  apply elem_of_cons in Hy as [-> | Hy]; [| by apply elem_of_nil in Hy].
  inversion Hr'.
Qed.

Lemma newForm_copies_one_level_witness :
  closed sample_heap /\
  plain_fields sample_heap (props_at sample_heap 2) = true /\
  deep_equal (mem sample_form) (VRef (values sample_form))
    sample_heap (VRef 2) /\
  deep_equal (writes shallow_writes (mem sample_form))
    (VRef (values sample_form)) (mem sample_form) (VRef (values sample_form)).
Proof.
  assert (Hclosed : closed sample_heap) by (apply closedb_closed; reflexivity).
  destruct (newForm_copies_one_level sample_heap plain_config 2
              (props_at sample_heap 2) sample_form
              Hclosed eq_refl eq_refl eq_refl) as (Hv & Hws).
  split; [exact Hclosed |]. split; [reflexivity |].
  split; [apply (Hv eq_refl) |].
  apply Hws. intros w Hw.
  assert (Hw' : w.1 = 2%nat \/ w.1 = 1%nat).
  { apply elem_of_cons in Hw as [-> | Hw]; [by left |].
    apply elem_of_cons in Hw as [-> | Hw]; [by right |].
    by apply elem_of_nil in Hw. }
  split; [simpl; destruct Hw' as [-> | ->]; lia |].
  intros x Hx Hr. pose proof (sample_nested_twice x w.1 Hx Hr) as H0.
  destruct Hw' as [H | H]; rewrite H in H0; discriminate.
Defined.

(** An array is an object too: given one as initial values, [newForm]
    stores plain objects keyed by the indices, which a deep comparison
    tells from the array. *)
Example newForm_array_initialValues :
  exists st,
    newForm sample_heap
      (Some {| initialValues := VRef 1; onSubmit := None;
               validateOnBlur := false; validateOnChange := false;
               validateOnFocus := false; validateOnInput := false;
               validationSchema := None |}) = Created st /\
    snapshot 1 sample_heap (VRef 1) = TArray [TDeeper] /\
    snapshot 1 (mem st) (VRef (values st)) = TObject [("0", TDeeper)].
Proof. eexists. repeat split. Qed.

(** ** Single fields *)

(** X7. Without validation, [setFieldValue] returns normally, the values store
    holds a new object in which [field] has the new value and every other
    field reads as before, and the object it held before is not written. *)
Lemma setFieldValue_updates_one_field (config : FormConfig) (st : Form)
    (field : string) (value : jsvalue) :
  (values st < length (mem st))%nat ->
  (setFieldValue config st field value false).2 = Normal /\
  values (setFieldValue config st field value false).1 = length (mem st) /\
  props_at (mem (setFieldValue config st field value false).1) (values st)
    = props_at (mem st) (values st) /\
  forall k,
    get_field
      (props_at (mem (setFieldValue config st field value false).1)
         (values (setFieldValue config st field value false).1)) k
    = if String.eqb field k then value
      else get_field (props_at (mem st) (values st)) k.
Proof.
  intros Hvalid. unfold setFieldValue. simpl.
  split; [reflexivity |]. split; [reflexivity |]. split.
  - apply props_at_prefix; [by apply prefix_app_r | done].
  - intros k.
    change (mem st ++ [?o]) with (alloc (mem st) o).1.
    change (length (mem st))
      with (alloc (mem st)
              (OPlain (set_field (props_at (mem st) (values st)) field value))).2
      at 1.
    rewrite props_at_alloc. apply get_set_field.
Qed.

(** ** The clone helper on its own *)

Lemma clone_entries_default (d : jsvalue) (h : heap) (obj : props) :
  d <> VUndefined -> clone_entries d h obj = (h, overridden d obj).
Proof.
  intros Hd. induction obj as [| [k v] obj IH]; [reflexivity |].
  cbn [clone_entries].
  assert (He : clone_entry d h (k, v) = (h, (k, d)))
    by (unfold clone_entry; destruct d; done).
  rewrite He, IH. reflexivity.
Qed.

Lemma get_field_overridden (d : jsvalue) (obj : props) (k : string) :
  get_field (overridden d obj) k
  = if bool_decide (k ∈ keys obj) then d else VUndefined.
Proof.
  induction obj as [| [k0 v0] obj IH].
  - rewrite bool_decide_eq_false_2 by apply not_elem_of_nil. reflexivity.
  - change (overridden d ((k0, v0) :: obj))
      with ((k0, d) :: overridden d obj).
    change (keys ((k0, v0) :: obj)) with (k0 :: keys obj).
    cbn [get_field].
    destruct (String.eqb k0 k) eqn:E.
    + apply String.eqb_eq in E. subst k0.
      rewrite bool_decide_eq_true_2 by left. reflexivity.
    + rewrite IH. apply String.eqb_neq in E.
      destruct (decide (k ∈ keys obj)) as [Hin | Hnin].
      * rewrite !bool_decide_eq_true_2; [done | by right | done].
      * rewrite !bool_decide_eq_false_2; [done | | done].
        intros [-> | H]%elem_of_cons; done.
Qed.

Lemma keys_overridden (d : jsvalue) (obj : props) :
  keys (overridden d obj) = keys obj.
Proof.
  unfold keys, overridden. rewrite map_map. reflexivity.
Qed.

(** X1. With a default value, that is anything but [undefined] ([null] and
    [false] are defaults), [clone] allocates one object and nothing else: it has
    the keys of the source in the same order, and every one of them holds
    the default, whatever the source held there; arrays and objects of
    the source are not copied. *)
Theorem clone_with_default (h : heap) (obj : props) (d : jsvalue) :
  d <> VUndefined ->
  clone h obj d = (h ++ [OPlain (overridden d obj)], length h) /\
  keys (overridden d obj) = keys obj /\
  forall k,
    get_field (props_at (clone h obj d).1 (clone h obj d).2) k
    = if bool_decide (k ∈ keys obj) then d else VUndefined.
Proof.
  intros Hd.
  assert (Hclone : clone h obj d
                   = (h ++ [OPlain (overridden d obj)], length h)).
  { unfold clone. rewrite (clone_entries_default d h obj Hd). reflexivity. }
  split; [exact Hclone |]. split; [apply keys_overridden |].
  intros k. rewrite Hclone. simpl.
  change (h ++ [OPlain (overridden d obj)])
    with (alloc h (OPlain (overridden d obj))).1.
  change (length h) with (alloc h (OPlain (overridden d obj))).2.
  rewrite props_at_alloc. apply get_field_overridden.
Qed.

Lemma clone_with_default_witness :
  VStr "Bond, James Bond" <> VUndefined /\
  clone sample_heap (props_at sample_heap 2) (VStr "Bond, James Bond")
  = (sample_heap ++
       [OPlain [("name", VStr "Bond, James Bond");
                ("tags", VStr "Bond, James Bond")]], 3%nat).
Proof.
  assert (Hd : VStr "Bond, James Bond" <> VUndefined) by discriminate.
  split; [exact Hd |].
  apply (clone_with_default sample_heap (props_at sample_heap 2)
           (VStr "Bond, James Bond") Hd).
Defined.

(** Where [clone] puts the copy. *)
Lemma clone_layout (h : heap) (l : loc) (obj : props) :
  closed h -> h !! l = Some (OPlain obj) ->
  exists entries,
    (clone h obj VUndefined).1 !! (clone h obj VUndefined).2
      = Some (OPlain entries) /\
    (length h <= (clone h obj VUndefined).2)%nat /\
    h `prefix_of` (clone h obj VUndefined).1 /\
    Forall2
      (fun kv kv' =>
         kv'.1 = kv.1 /\ copy_of h (clone h obj VUndefined).1 kv.2 kv'.2)
      obj entries.
Proof.
  intros Hc Hobj.
  assert (Hin : Forall (in_heap h) (map snd obj)).
  { apply Forall_forall. intros v Hv.
    by apply (closed_in_heap h l (OPlain obj)). }
  pose proof (clone_entries_copy h obj h ltac:(reflexivity) Hin) as Hcopy.
  pose proof (clone_entries_prefix VUndefined obj h) as Hp0.
  pose proof (clone_prefix h obj VUndefined) as Hp.
  unfold clone in *.
  destruct (clone_entries VUndefined h obj) as [h' entries].
  simpl in *. exists entries.
  split; [by apply list_lookup_middle |].
  split; [by apply prefix_length |]. split; [exact Hp |].
  eapply Forall2_impl; [exact Hcopy |].
  intros kv kv' [Hk Hcp]. split; [done |].
  eapply copy_of_prefix; [| exact Hcp]. by apply prefix_app_r.
Qed.

(** X2. Without a default value the clone of a plain object whose fields
    hold primitives, arrays or plain objects deep-equals the source: same
    keys in the same order, and under each key what a deep comparison sees
    is the same at every depth. (A field that holds any other object, a
    Date say, is cloned as a plain object with that object's own
    enumerable properties, which a deep comparison tells apart.) *)
Theorem clone_deep_equal (h : heap) (l : loc) (obj : props) :
  closed h -> h !! l = Some (OPlain obj) ->
  plain_fields h obj = true ->
  deep_equal (clone h obj VUndefined).1 (VRef (clone h obj VUndefined).2)
    h (VRef l) /\
  keys (props_at (clone h obj VUndefined).1 (clone h obj VUndefined).2)
    = keys obj.
Proof.
  intros Hc Hobj Hdata.
  destruct (clone_layout h l obj Hc Hobj) as (entries & He & _ & Hpre & HF).
  split.
  - intros [| depth]; [reflexivity |]. simpl. rewrite He, Hobj. f_equal.
    by apply copies_snapshot.
  - rewrite props_at_clone. apply clone_entries_keys.
Qed.

Lemma clone_deep_equal_witness :
  closed sample_heap /\
  plain_fields sample_heap (props_at sample_heap 2) = true /\
  deep_equal
    (clone sample_heap (props_at sample_heap 2) VUndefined).1
    (VRef (clone sample_heap (props_at sample_heap 2) VUndefined).2)
    sample_heap (VRef 2).
Proof.
  assert (Hclosed : closed sample_heap) by (apply closedb_closed; reflexivity).
  split; [exact Hclosed |]. split; [reflexivity |].
  apply (clone_deep_equal sample_heap 2 (props_at sample_heap 2)
           Hclosed eq_refl eq_refl).
Defined.

(** X3. The clone and its source are isolated one level deep, in both
    directions: mutations of the source object, or of an array or object it
    holds directly (and that is not also nested deeper in it), do not show
    in the clone; mutations of the objects that [clone] allocated do not
    show in the source. *)
Theorem clone_isolated (h : heap) (l : loc) (obj : props) :
  closed h -> h !! l = Some (OPlain obj) ->
  (forall ws,
     (forall w, w ∈ ws ->
        (w.1 < length h)%nat /\
        forall x, nested_twice h obj x -> ~ reach h x w.1) ->
     deep_equal
       (writes ws (clone h obj VUndefined).1)
       (VRef (clone h obj VUndefined).2)
       (clone h obj VUndefined).1 (VRef (clone h obj VUndefined).2)) /\
  (forall ws,
     (forall w, w ∈ ws -> (length h <= w.1)%nat) ->
     deep_equal (writes ws (clone h obj VUndefined).1) (VRef l) h (VRef l)).
Proof.
  intros Hc Hobj.
  destruct (clone_layout h l obj Hc Hobj) as (entries & He & Hlen & Hpre & HF).
  split.
  - intros ws Hws. apply writes_unreachable. intros w a Hw Ha.
    destruct (Hws w Hw) as [Hold Hfar].
    destruct (copies_reach h _ obj entries _ a Hc Hpre HF He Hlen Ha)
      as [Hnew | (x & Hx & Hrx)]; [lia |].
    intros ->. by apply (Hfar x).
  - intros ws Hws depth.
    assert (Hl : in_heap h (VRef l)) by (simpl; by eapply lookup_lt_Some).
    rewrite writes_unreachable.
    + by apply snapshot_prefix.
    + intros w a Hw Ha. specialize (Hws w Hw).
      apply (reach_prefix h) in Ha; [| done ..].
      pose proof (reach_in_heap h (VRef l) a Hc Hl Ha). lia.
Qed.

Lemma clone_isolated_witness :
  closed sample_heap /\
  deep_equal
    (writes shallow_writes
       (clone sample_heap (props_at sample_heap 2) VUndefined).1)
    (VRef 4)
    (clone sample_heap (props_at sample_heap 2) VUndefined).1 (VRef 4) /\
  deep_equal
    (writes clone_writes
       (clone sample_heap (props_at sample_heap 2) VUndefined).1)
    (VRef 2) sample_heap (VRef 2).
Proof.
  assert (Hclosed : closed sample_heap) by (apply closedb_closed; reflexivity).
  destruct (clone_isolated sample_heap 2 (props_at sample_heap 2)
              Hclosed eq_refl) as [Hsrc Hcopy].
  split; [exact Hclosed |]. split.
  - apply Hsrc. intros w Hw.
    assert (Hw' : w.1 = 2%nat \/ w.1 = 1%nat).
    { apply elem_of_cons in Hw as [-> | Hw]; [by left |].
      apply elem_of_cons in Hw as [-> | Hw]; [by right |].
      by apply elem_of_nil in Hw. }
    split; [simpl; destruct Hw' as [-> | ->]; lia |].
    intros x Hx Hr. pose proof (sample_nested_twice x w.1 Hx Hr) as H0.
    destruct Hw' as [H | H]; rewrite H in H0; discriminate.
  - apply Hcopy. intros w Hw.
    apply elem_of_cons in Hw as [-> | Hw]; [simpl; lia |].
    apply elem_of_cons in Hw as [-> | Hw]; [simpl; lia |].
    by apply elem_of_nil in Hw.
Defined.

(** ** What the container owns *)

Lemma owned_at_prefix (base : nat) (h h' : heap) (l : loc) :
  h `prefix_of` h' -> owned_at base h l -> owned_at base h' l.
Proof.
  intros Hpre [Hb [fs Hl]]. split; [done |]. exists fs.
  by eapply prefix_lookup_Some.
Qed.

Lemma owned_at_alloc (base : nat) (h : heap) (fs : props) :
  (base <= length h)%nat ->
  owned_at base (alloc h (OPlain fs)).1 (alloc h (OPlain fs)).2.
Proof.
  intros Hb. split; [done |]. exists fs. apply lookup_alloc.
Qed.

Lemma owned_at_clone (base : nat) (h : heap) (obj : props) (d : jsvalue) :
  (base <= length h)%nat ->
  owned_at base (clone h obj d).1 (clone h obj d).2.
Proof.
  intros Hb. unfold clone.
  pose proof (clone_entries_prefix d obj h) as Hpre.
  destruct (clone_entries d h obj) as [h' entries]. simpl in Hpre.
  apply owned_at_alloc. apply prefix_length in Hpre. lia.
Qed.

Lemma owned_at_assign (base : nat) (h : heap) (a l : loc) (k : string)
    (v : jsvalue) :
  owned_at base h l -> owned_at base (assign h a k v) l.
Proof.
  intros [Hb [fs Hl]]. split; [done |]. unfold assign.
  destruct (h !! a) as [[items | fs' | cls slots fs'] |] eqn:Ha; try by exists fs.
  destruct (decide (a = l)) as [-> | Hne].
  - eexists. apply list_lookup_insert_eq. by eapply lookup_lt_Some.
  - exists fs. by rewrite list_lookup_insert_ne.
Qed.

Lemma prefix_assign (h0 h : heap) (a : loc) (k : string) (v : jsvalue) :
  h0 `prefix_of` h -> (length h0 <= a)%nat -> h0 `prefix_of` assign h a k v.
Proof.
  intros [t ->] Ha. unfold assign.
  destruct ((h0 ++ t) !! a) as [[items | fs | cls slots fs] |];
    try by apply prefix_app_r.
  rewrite insert_app_r_alt by done. by apply prefix_app_r.
Qed.

(** Replacing what one store holds by a newly allocated object. *)
Lemma owned_grow (h0 : heap) (st st' : Form) :
  owned h0 st -> mem st `prefix_of` mem st' ->
  (values st' = values st \/ owned_at (length h0) (mem st') (values st')) ->
  (__initialValues st' = __initialValues st \/
   owned_at (length h0) (mem st') (__initialValues st')) ->
  (__errors st' = __errors st \/
   owned_at (length h0) (mem st') (__errors st')) ->
  (__touched st' = __touched st \/
   owned_at (length h0) (mem st') (__touched st')) ->
  owned h0 st'.
Proof.
  intros (Hpre & Hv & Hi & He & Ht) Hext Hv' Hi' He' Ht'.
  unfold owned. split; [by etrans |].
  split; [destruct Hv' as [-> | H]; eauto using owned_at_prefix |].
  split; [destruct Hi' as [-> | H]; eauto using owned_at_prefix |].
  split; [destruct He' as [-> | H]; eauto using owned_at_prefix |].
  destruct Ht' as [-> | H]; eauto using owned_at_prefix.
Qed.

Lemma owned_length (h0 : heap) (st : Form) :
  owned h0 st -> (length h0 <= length (mem st))%nat.
Proof. intros (Hpre & _). by apply prefix_length. Qed.

Lemma alloc_prefix (h : heap) (o : object) : h `prefix_of` (alloc h o).1.
Proof. unfold alloc. simpl. by apply prefix_app_r. Qed.

Lemma clearErrors_owned (h0 : heap) (st : Form) :
  owned h0 st -> owned h0 (clearErrors st).
Proof.
  intros Ho. apply (owned_grow h0 st); auto.
  - apply clone_prefix.
  - right. apply owned_at_clone. by apply owned_length.
Qed.

Lemma setFieldError_owned (h0 : heap) (st : Form) (field : string)
    (msg : jsvalue) :
  owned h0 st -> owned h0 (setFieldError st field msg).
Proof.
  intros Ho. apply (owned_grow h0 st); auto.
  - apply alloc_prefix.
  - right. apply owned_at_alloc. by apply owned_length.
Qed.

Lemma setFieldTouched_owned (h0 : heap) (st : Form) (field : string)
    (value : jsvalue) :
  owned h0 st -> owned h0 (setFieldTouched st field value).1.
Proof.
  intros Ho. unfold setFieldTouched.
  assert (Hset : forall b,
    owned h0
      (set___touched
         (alloc (mem st)
            (OPlain (set_field (props_at (mem st) (__touched st)) field
                       (VBool b)))) st)).
  { intros b. apply (owned_grow h0 st); auto.
    - apply alloc_prefix.
    - right. apply owned_at_alloc. by apply owned_length. }
  destruct value; simpl; auto.
Qed.

Lemma setInitialValues_owned (h0 : heap) (st : Form) (v : jsvalue) :
  owned h0 st -> owned h0 (setInitialValues st v).1.
Proof.
  intros Ho. unfold setInitialValues.
  destruct (own_props (mem st) v) as [obj |]; simpl; [| done].
  apply (owned_grow h0 st); auto.
  - apply clone_prefix.
  - right. apply owned_at_clone. by apply owned_length.
Qed.

Lemma setYupValidationErrors_owned (h0 : heap) (st : Form) (error : thrown) :
  owned h0 st -> owned h0 (setYupValidationErrors st error).1.
Proof.
  intros Ho. unfold setYupValidationErrors.
  destruct error as [v | e]; [done |].
  destruct (path e); [| done]. destruct (errors e); [| done].
  by apply setFieldError_owned.
Qed.

Section Ownership.

Variable ToNumber : jsvalue -> jsvalue.
Variable config : FormConfig.
Variable h0 : heap.

Lemma validateField_owned (st : Form) (field : string) :
  owned h0 st -> owned h0 (validateField config st field).1.
Proof.
  intros Ho. unfold validateField.
  destruct (call_schema config _);
    [by apply setYupValidationErrors_owned | by apply setFieldError_owned].
Qed.

Lemma validateFieldSync_owned (st : Form) (field : string) :
  owned h0 st -> owned h0 (validateFieldSync config st field).1.
Proof.
  intros Ho. unfold validateFieldSync.
  destruct (call_schema config _);
    [by apply setYupValidationErrors_owned |].
  by apply (setFieldError_owned h0 st field VUndefined).
Qed.

Lemma setFieldValue_owned (st : Form) (field : string) (value : jsvalue)
    (b : bool) :
  owned h0 st -> owned h0 (setFieldValue config st field value b).1.
Proof.
  intros Ho. unfold setFieldValue.
  assert (Hset :
    owned h0
      (set_values
         (alloc (mem st)
            (OPlain (set_field (props_at (mem st) (values st)) field value)))
         st)).
  { apply (owned_grow h0 st); auto.
    - apply alloc_prefix.
    - right. apply owned_at_alloc. by apply owned_length. }
  destruct (b && _); [by apply validateFieldSync_owned | done].
Qed.

Lemma handleBlur_owned (st : Form) (event : Event) :
  owned h0 st -> owned h0 (handleBlur config st event).1.
Proof.
  intros Ho. unfold handleBlur.
  destruct (target event) as [t |]; [| done].
  pose proof (setFieldTouched_owned h0 st (el_name t) VUndefined Ho) as Ht.
  destruct (setFieldTouched st (el_name t) VUndefined) as [st1 c].
  destruct c; [| done ..].
  destruct (validateOnBlur config); [| done].
  by apply validateField_owned.
Qed.

Lemma handleFocus_owned (st : Form) (event : Event) :
  owned h0 st -> owned h0 (handleFocus config st event).1.
Proof.
  intros Ho. unfold handleFocus.
  destruct (target event) as [t |]; [| done].
  pose proof (setFieldTouched_owned h0 st (el_name t) VUndefined Ho) as Ht.
  destruct (setFieldTouched st (el_name t) VUndefined) as [st1 c].
  destruct c; [| done ..].
  destruct (validateOnFocus config); [| done].
  by apply validateField_owned.
Qed.

Lemma handleChange_owned (st : Form) (event : Event) :
  owned h0 st -> owned h0 (handleChange ToNumber config st event).1.
Proof.
  intros Ho. unfold handleChange.
  destruct (target event) as [t |]; [| done].
  by apply setFieldValue_owned.
Qed.

Lemma handleInput_owned (st : Form) (event : Event) :
  owned h0 st -> owned h0 (handleInput ToNumber config st event).1.
Proof.
  intros Ho. unfold handleInput.
  destruct (target event) as [t |]; [| done].
  by apply setFieldValue_owned.
Qed.

Lemma callback_do_owned (l : loc) (st : Form) (s : callback_step) :
  (length h0 <= l)%nat -> owned h0 st ->
  owned h0 (callback_do config l st s).
Proof.
  intros Hl Ho. destruct s as [field msg | field v | field v]; simpl.
  - by apply setFieldError_owned.
  - by apply (setFieldValue_owned st field v false).
  - destruct Ho as (Hpre & Hv & Hi & He & Ht). unfold owned. simpl.
    split; [by apply prefix_assign |].
    split; [| split; [| split]]; by apply owned_at_assign.
Qed.

Lemma callback_steps_owned (l : loc) (steps : list callback_step)
    (st : Form) :
  (length h0 <= l)%nat -> owned h0 st ->
  owned h0 (fold_left (callback_do config l) steps st).
Proof.
  intros Hl. revert st.
  induction steps as [| s steps IH]; intros st Ho; simpl; [done |].
  apply IH. by apply callback_do_owned.
Qed.

Lemma call_onSubmit_owned (callback : Callback) (st : Form) (l : loc) :
  (length h0 <= l)%nat -> owned h0 st ->
  owned h0 (call_onSubmit config callback st l).1.
Proof.
  intros Hl Ho. unfold call_onSubmit.
  destruct (callback (mem (emit (OnSubmit l) st)) l) as [steps t].
  simpl. by apply callback_steps_owned.
Qed.

Lemma validate_values_owned (st : Form) (schema : Schema) (l : loc) :
  owned h0 st -> owned h0 (validate_values st schema l).1.
Proof.
  intros Ho. unfold validate_values. cbn [mem set___isValidating].
  destruct (validate schema (mem st) l) as [error |]; [| done].
  destruct (inner_of error) as [inner_errors |]; [| done].
  simpl. apply (owned_grow h0 st); auto.
  - apply alloc_prefix.
  - right. apply owned_at_alloc. by apply owned_length.
Qed.

Lemma handleSubmit_owned (st : Form) (event : option Event) :
  owned h0 st -> owned h0 (handleSubmit config st event).1.
Proof.
  intros Ho. unfold handleSubmit.
  destruct (onSubmit config) as [callback |]; [| done].
  destruct (stop_event_spec st event) as [(Hm & Hi & _ & _ & He & Ht & Hv) _].
  set (st0 := stop_event st event) in *.
  assert (H0 : owned h0 st0).
  { unfold owned. rewrite Hm, Hi, He, Ht, Hv. exact Ho. }
  assert (Harg : (length h0 <= values st0)%nat).
  { destruct H0 as (_ & [Hb _] & _). exact Hb. }
  assert (H1 : owned h0 (set___isSubmitting true (clearErrors st0)))
    by exact (clearErrors_owned h0 st0 H0).
  destruct (validationSchema config) as [schema |].
  - pose proof (validate_values_owned _ schema (values st0) H1) as H2.
    destruct (validate_values _ schema (values st0)) as [st1 c].
    destruct c; [| done ..].
    pose proof (call_onSubmit_owned callback st1 (values st0) Harg H2) as H3.
    by destruct (call_onSubmit config callback st1 (values st0)).
  - pose proof (call_onSubmit_owned callback _ (values st0) Harg H1) as H3.
    by destruct (call_onSubmit config callback _ (values st0)).
Qed.

Lemma step_owned (st : Form) (op : operation) :
  owned h0 st -> owned h0 (step ToNumber config st op).1.
Proof.
  intros Ho. destruct op; simpl.
  - by apply clearErrors_owned.
  - by apply handleBlur_owned.
  - by apply handleChange_owned.
  - by apply handleFocus_owned.
  - by apply handleInput_owned.
  - by apply handleSubmit_owned.
  - destruct Ho as (Hpre & Hv & Hi & He & Ht). unfold owned, reset. simpl.
    auto.
  - by apply setInitialValues_owned.
  - by apply setFieldError_owned.
  - by apply setFieldTouched_owned.
  - by apply setFieldValue_owned.
  - by apply validateField_owned.
  - by apply validateFieldSync_owned.
Qed.

Lemma run_owned (ops : list operation) (st : Form) :
  owned h0 st -> owned h0 (run ToNumber config ops st).
Proof.
  revert st. induction ops as [| op ops IH]; intros st Ho; simpl; [done |].
  apply IH. by apply step_owned.
Qed.

End Ownership.

Lemma newForm_owned (h : heap) (config : FormConfig) (st : Form) :
  newForm h (Some config) = Created st -> owned h st.
Proof.
  intros Hnew. unfold newForm in Hnew.
  destruct (falsy (initialValues config)); [discriminate |].
  destruct (own_props h (initialValues config)) as [obj |]; [| discriminate].
  pose proof (clone_prefix h obj VUndefined) as P1.
  pose proof (owned_at_clone (length h) h obj VUndefined ltac:(lia)) as Hi.
  destruct (clone h obj VUndefined) as [h1 iv]. simpl in *.
  pose proof (prefix_length _ _ P1) as L1.
  pose proof (clone_prefix h1 (props_at h1 iv) VNull) as P2.
  pose proof (owned_at_clone (length h) h1 (props_at h1 iv) VNull L1) as He.
  destruct (clone h1 (props_at h1 iv) VNull) as [h2 errs]. simpl in *.
  pose proof (prefix_length _ _ P2) as L2.
  pose proof (clone_prefix h2 (props_at h2 iv) (VBool false)) as P3.
  pose proof (owned_at_clone (length h) h2 (props_at h2 iv) (VBool false)
                ltac:(lia)) as Ht.
  destruct (clone h2 (props_at h2 iv) (VBool false)) as [h3 tch].
  simpl in *.
  pose proof (prefix_length _ _ P3) as L3.
  pose proof (alloc_prefix h3 (OPlain (props_at h3 iv))) as P4.
  pose proof (owned_at_alloc (length h) h3 (props_at h3 iv) ltac:(lia)) as Hv.
  unfold alloc in *. simpl in *. injection Hnew as <-.
  unfold owned. simpl.
  split; [etrans; [exact P1 |]; etrans; [exact P2 |]; by etrans |].
  split; [exact Hv |].
  split; [apply (owned_at_prefix _ h1); [| exact Hi];
          etrans; [exact P2 |]; by etrans |].
  split; [apply (owned_at_prefix _ h2); [| exact He]; by etrans |].
  by apply (owned_at_prefix _ h3).
Qed.

(** X5. In every state a form can reach from [newForm], by any sequence of
    operations and whatever the schema and the callback do, each of the four
    object stores holds a plain object that the container allocated itself:
    never an array, never a missing object, never an object of the caller
    (not even after [setInitialValues] or [reset]). *)
Theorem stores_hold_own_objects (ToNumber : jsvalue -> jsvalue) (h : heap)
    (config : FormConfig) (st0 : Form) (ops : list operation) :
  newForm h (Some config) = Created st0 ->
  owned_at (length h) (mem (run ToNumber config ops st0))
    (values (run ToNumber config ops st0)) /\
  owned_at (length h) (mem (run ToNumber config ops st0))
    (__initialValues (run ToNumber config ops st0)) /\
  owned_at (length h) (mem (run ToNumber config ops st0))
    (__errors (run ToNumber config ops st0)) /\
  owned_at (length h) (mem (run ToNumber config ops st0))
    (__touched (run ToNumber config ops st0)).
Proof.
  intros Hnew.
  destruct (run_owned ToNumber config h ops st0 (newForm_owned _ _ _ Hnew))
    as (_ & H).
  exact H.
Qed.

Lemma stores_hold_own_objects_witness :
  newForm sample_heap (Some busy_config) = Created sample_form /\
  owned_at 3 (mem (run test_ToNumber busy_config busy_ops sample_form))
    (values (run test_ToNumber busy_config busy_ops sample_form)).
Proof.
  split; [reflexivity |].
  apply (stores_hold_own_objects test_ToNumber sample_heap busy_config
           sample_form busy_ops eq_refl).
Defined.

(** X6. No operation of the container ever writes into an object of the
    caller: after any sequence of operations every object of the heap
    [newForm] was called in is as it was, so every value of the caller, the
    initial-values object included, still deep-equals what it was. *)
Theorem caller_objects_never_written (ToNumber : jsvalue -> jsvalue)
    (h : heap) (config : FormConfig) (st0 : Form) (ops : list operation) :
  newForm h (Some config) = Created st0 ->
  (forall l o,
     h !! l = Some o -> mem (run ToNumber config ops st0) !! l = Some o) /\
  (closed h ->
   forall v,
     in_heap h v -> deep_equal (mem (run ToNumber config ops st0)) v h v).
Proof.
  intros Hnew.
  destruct (run_owned ToNumber config h ops st0 (newForm_owned _ _ _ Hnew))
    as (Hpre & _).
  split.
  - intros l o Hl. by eapply prefix_lookup_Some.
  - intros Hc v Hv depth. by apply snapshot_prefix.
Qed.

Lemma caller_objects_never_written_witness :
  newForm sample_heap (Some busy_config) = Created sample_form /\
  (forall l o,
     sample_heap !! l = Some o ->
     mem (run test_ToNumber busy_config busy_ops sample_form) !! l = Some o).
Proof.
  split; [reflexivity |].
  apply (caller_objects_never_written test_ToNumber sample_heap busy_config
           sample_form busy_ops eq_refl).
Defined.

(** ** A new form *)

Lemma clone_default (h : heap) (obj : props) (d : jsvalue) :
  d <> VUndefined ->
  clone h obj d = (h ++ [OPlain (overridden d obj)], length h).
Proof.
  intros Hd. unfold clone. by rewrite (clone_entries_default d h obj Hd).
Qed.

Lemma overridden_keys (d : jsvalue) (fs fs' : props) :
  keys fs = keys fs' -> overridden d fs = overridden d fs'.
Proof.
  unfold keys, overridden. revert fs'.
  induction fs as [| [k v] fs IH]; intros [| [k' v'] fs'] H;
    simpl in *; try done.
  injection H as -> H. f_equal. by apply IH.
Qed.

Lemma props_at_snoc (h : heap) (fs : props) :
  props_at (h ++ [OPlain fs]) (length h) = fs.
Proof. apply (props_at_alloc h fs). Qed.

Lemma own_props_truthy (h : heap) (v : jsvalue) :
  falsy v = false -> is_Some (own_props h v).
Proof. destruct v; simpl; try done; by eexists. Qed.

(** X4. [newForm] succeeds on every configuration whose [initialValues] is
    truthy. The form it gives has the keys of [initialValues] in its values
    and initial values, [null] under every one of them in the errors,
    [false] under every one of them in the touched map, both flags down,
    and nothing has been called or logged. *)
Theorem newForm_seeds_stores (h : heap) (config : FormConfig) :
  falsy (initialValues config) = false ->
  exists obj st,
    own_props h (initialValues config) = Some obj /\
    newForm h (Some config) = Created st /\
    keys (props_at (mem st) (values st)) = keys obj /\
    keys (props_at (mem st) (__initialValues st)) = keys obj /\
    props_at (mem st) (__errors st) = overridden VNull obj /\
    props_at (mem st) (__touched st) = overridden (VBool false) obj /\
    __isSubmitting st = false /\ __isValidating st = false /\
    trace st = [].
Proof.
  intros Htruthy.
  destruct (own_props_truthy h _ Htruthy) as [obj Hobj].
  exists obj. unfold newForm. rewrite Htruthy, Hobj.
  pose proof (props_at_clone h obj VUndefined) as Hiv.
  pose proof (clone_entries_keys VUndefined obj h) as Hkeys.
  set (entries := (clone_entries VUndefined h obj).2) in *.
  assert (Hlen1 : ((clone h obj VUndefined).2
                   < length (clone h obj VUndefined).1)%nat).
  { unfold clone. destruct (clone_entries VUndefined h obj) as [h' es].
    simpl. rewrite length_app. simpl. lia. }
  destruct (clone h obj VUndefined) as [h1 iv]. simpl in Hiv, Hlen1.
  rewrite Hiv.
  rewrite (clone_default h1 entries VNull) by discriminate.
  set (h2 := h1 ++ [OPlain (overridden VNull entries)]).
  assert (P12 : h1 `prefix_of` h2) by (by apply prefix_app_r).
  rewrite (props_at_prefix h1 h2 iv P12 Hlen1), Hiv.
  rewrite (clone_default h2 entries (VBool false)) by discriminate.
  set (h3 := h2 ++ [OPlain (overridden (VBool false) entries)]).
  assert (P23 : h2 `prefix_of` h3) by (by apply prefix_app_r).
  assert (P13 : h1 `prefix_of` h3) by (by etrans).
  rewrite (props_at_prefix h1 h3 iv P13 Hlen1), Hiv.
  unfold alloc. eexists. split; [reflexivity |]. split; [reflexivity |].
  simpl.
  set (h4 := h3 ++ [OPlain entries]).
  assert (P34 : h3 `prefix_of` h4) by (by apply prefix_app_r).
  assert (L2 : length h2 = S (length h1))
    by (unfold h2; rewrite length_app; simpl; lia).
  assert (L3 : length h3 = S (length h2))
    by (unfold h3; rewrite length_app; simpl; lia).
  split.
  { unfold h4. by rewrite props_at_snoc. }
  split.
  { rewrite (props_at_prefix h1 h4 iv); [by rewrite Hiv | by etrans | done]. }
  split.
  { rewrite (props_at_prefix h2 h4 (length h1)); [| by etrans | lia].
    unfold h2. rewrite props_at_snoc. by apply overridden_keys. }
  split; [| done].
  rewrite (props_at_prefix h3 h4 (length h2)); [| done | lia].
  unfold h3. rewrite props_at_snoc. by apply overridden_keys.
Qed.

Lemma newForm_seeds_stores_witness :
  falsy (initialValues plain_config) = false /\
  exists obj st,
    own_props sample_heap (initialValues plain_config) = Some obj /\
    newForm sample_heap (Some plain_config) = Created st /\
    props_at (mem st) (__errors st) = overridden VNull obj /\
    props_at (mem st) (__touched st) = overridden (VBool false) obj.
Proof.
  split; [reflexivity |].
  destruct (newForm_seeds_stores sample_heap plain_config eq_refl)
    as (obj & st & Hobj & Hnew & _ & _ & He & Ht & _).
  exists obj, st. auto.
Defined.

(** ** Single stores *)

Lemma props_at_alloc_old (h : heap) (o : object) (l : loc) :
  (l < length h)%nat -> props_at (alloc h o).1 l = props_at h l.
Proof. intros Hl. apply props_at_prefix; [apply alloc_prefix | done]. Qed.

Lemma props_at_clone_old (h : heap) (obj : props) (d : jsvalue) (l : loc) :
  (l < length h)%nat -> props_at (clone h obj d).1 l = props_at h l.
Proof. intros Hl. apply props_at_prefix; [apply clone_prefix | done]. Qed.

Lemma elem_of_keys_get_field (fs : props) (k : string) :
  k ∉ keys fs -> get_field fs k = VUndefined.
Proof.
  induction fs as [| [k0 v0] fs IH]; [done |].
  unfold keys. simpl. intros Hk.
  destruct (String.eqb k0 k) eqn:E.
  - apply String.eqb_eq in E. subst k0. exfalso. apply Hk. left.
  - apply IH. intros Hin. apply Hk. by right.
Qed.

(** X8. [setFieldError] replaces one entry of the errors: the named field
    reads as the message given, every other field as before. The key is
    there afterwards even when the message is omitted (the entry then holds
    [undefined]), no key is ever removed, and the values, the initial
    values and the touched map are as they were. *)
Theorem setFieldError_updates_one_entry (st : Form) (field : string)
    (msg : jsvalue) :
  stores_in_heap st ->
  (forall k,
     get_field
       (props_at (mem (setFieldError st field msg))
          (__errors (setFieldError st field msg))) k
     = if String.eqb field k then msg
       else get_field (props_at (mem st) (__errors st)) k) /\
  (forall k,
     k ∈ keys (props_at (mem (setFieldError st field msg))
                 (__errors (setFieldError st field msg)))
     <-> k ∈ keys (props_at (mem st) (__errors st)) \/ k = field) /\
  props_at (mem (setFieldError st field msg))
    (values (setFieldError st field msg))
    = props_at (mem st) (values st) /\
  props_at (mem (setFieldError st field msg))
    (__initialValues (setFieldError st field msg))
    = props_at (mem st) (__initialValues st) /\
  props_at (mem (setFieldError st field msg))
    (__touched (setFieldError st field msg))
    = props_at (mem st) (__touched st).
Proof.
  intros (Hv & Hi & He & Ht). unfold setFieldError. simpl.
  set (fs := set_field (props_at (mem st) (__errors st)) field msg).
  change (mem st ++ [OPlain fs]) with (alloc (mem st) (OPlain fs)).1.
  change (length (mem st)) with (alloc (mem st) (OPlain fs)).2.
  rewrite props_at_alloc, !props_at_alloc_old by done.
  split; [intros k; apply get_set_field |].
  split; [intros k; apply elem_of_keys_set_field |]. done.
Qed.

Lemma setFieldError_updates_one_entry_witness :
  stores_in_heap sample_form /\
  forall k,
    k ∈ keys (props_at (mem (setFieldError sample_form "nick" VUndefined))
                (__errors (setFieldError sample_form "nick" VUndefined)))
    <-> k ∈ keys (props_at (mem sample_form) (__errors sample_form))
        \/ k = "nick".
Proof.
  assert (Hs : stores_in_heap sample_form)
    by (unfold stores_in_heap; simpl; lia).
  split; [exact Hs |].
  apply (setFieldError_updates_one_entry sample_form "nick" VUndefined Hs).
Defined.

(** X9. [setFieldTouched] accepts a boolean, or [undefined] for [true]:
    the named field of the touched map then holds that boolean, the other
    fields and the other stores are as before, so touching and untouching a
    field leaves exactly that field [false]. Any other value ([null], a
    number, a string, an object) makes it throw a TypeError and leaves the
    form as it was. *)
Theorem setFieldTouched_spec (st : Form) (field : string) (value : jsvalue) :
  stores_in_heap st ->
  (is_boolean value = false -> value <> VUndefined ->
   exists msg, setFieldTouched st field value = (st, Throw (TypeError msg))) /\
  (forall b,
     value = VBool b \/ (value = VUndefined /\ b = true) ->
     (setFieldTouched st field value).2 = Normal /\
     (forall k,
        get_field
          (props_at (mem (setFieldTouched st field value).1)
             (__touched (setFieldTouched st field value).1)) k
        = if String.eqb field k then VBool b
          else get_field (props_at (mem st) (__touched st)) k) /\
     props_at (mem (setFieldTouched st field value).1)
       (values (setFieldTouched st field value).1)
       = props_at (mem st) (values st) /\
     props_at (mem (setFieldTouched st field value).1)
       (__errors (setFieldTouched st field value).1)
       = props_at (mem st) (__errors st) /\
     forall k,
       get_field
         (props_at
            (mem (setFieldTouched (setFieldTouched st field value).1
                    field (VBool false)).1)
            (__touched (setFieldTouched (setFieldTouched st field value).1
                          field (VBool false)).1)) k
       = if String.eqb field k then VBool false
         else get_field (props_at (mem st) (__touched st)) k).
Proof.
  intros (Hv & Hi & He & Ht). split.
  - intros Hb Hu. destruct value; try done; eexists; reflexivity.
  - intros b Hvalue.
    assert (Heq : setFieldTouched st field value
                  = (set___touched
                       (alloc (mem st)
                          (OPlain (set_field (props_at (mem st) (__touched st))
                                     field (VBool b)))) st, Normal)).
    { destruct Hvalue as [-> | [-> ->]]; reflexivity. }
    rewrite Heq. simpl.
    set (fs := set_field (props_at (mem st) (__touched st)) field (VBool b)).
    change (mem st ++ [OPlain fs]) with (alloc (mem st) (OPlain fs)).1.
    change (length (mem st)) with (alloc (mem st) (OPlain fs)).2.
    rewrite props_at_alloc, !props_at_alloc_old by done.
    split; [done |]. split; [intros k; apply get_set_field |].
    split; [done |]. split; [done |].
    intros k.
    set (fs' := set_field fs field (VBool false)).
    change ((alloc (mem st) (OPlain fs)).1 ++ [OPlain fs'])
      with (alloc (alloc (mem st) (OPlain fs)).1 (OPlain fs')).1.
    change (length (alloc (mem st) (OPlain fs)).1)
      with (alloc (alloc (mem st) (OPlain fs)).1 (OPlain fs')).2.
    rewrite props_at_alloc. unfold fs', fs. rewrite !get_set_field.
    by destruct (String.eqb field k).
Qed.

Lemma setFieldTouched_spec_witness :
  stores_in_heap sample_form /\
  is_boolean (VStr "yes") = false /\ VStr "yes" <> VUndefined /\
  exists msg,
    setFieldTouched sample_form "name" (VStr "yes")
    = (sample_form, Throw (TypeError msg)).
Proof.
  assert (Hs : stores_in_heap sample_form)
    by (unfold stores_in_heap; simpl; lia).
  assert (Hu : VStr "yes" <> VUndefined) by discriminate.
  split; [exact Hs |]. split; [reflexivity |]. split; [exact Hu |].
  apply (setFieldTouched_spec sample_form "name" (VStr "yes") Hs);
    [reflexivity | exact Hu].
Defined.

Lemma setFieldValue_updates_one_field_witness :
  (values sample_form < length (mem sample_form))%nat /\
  forall k,
    get_field
      (props_at
         (mem (setFieldValue plain_config sample_form "name"
                 (VStr "Testing!") false).1)
         (values (setFieldValue plain_config sample_form "name"
                    (VStr "Testing!") false).1)) k
    = if String.eqb "name" k then VStr "Testing!"
      else get_field (props_at (mem sample_form) (values sample_form)) k.
Proof.
  assert (Hv : (values sample_form < length (mem sample_form))%nat)
    by (simpl; lia).
  split; [exact Hv |].
  apply (setFieldValue_updates_one_field plain_config sample_form "name"
           (VStr "Testing!") Hv).
Defined.

(** X10. [clearErrors] rebuilds the errors from the keys of the current
    initial values: every one of them holds [null] afterwards, and a key
    that is not a key of the initial values is gone, so whatever
    [setFieldError] stored before is forgotten. The values, the initial
    values and the touched map are as they were. *)
Theorem clearErrors_resets_every_entry (st : Form) :
  stores_in_heap st ->
  props_at (mem (clearErrors st)) (__errors (clearErrors st))
    = overridden VNull (props_at (mem st) (__initialValues st)) /\
  (forall k,
     get_field (props_at (mem (clearErrors st)) (__errors (clearErrors st))) k
     = if bool_decide (k ∈ keys (props_at (mem st) (__initialValues st)))
       then VNull else VUndefined) /\
  (forall field msg,
     props_at (mem (clearErrors (setFieldError st field msg)))
       (__errors (clearErrors (setFieldError st field msg)))
     = overridden VNull (props_at (mem st) (__initialValues st))) /\
  props_at (mem (clearErrors st)) (values (clearErrors st))
    = props_at (mem st) (values st) /\
  props_at (mem (clearErrors st)) (__initialValues (clearErrors st))
    = props_at (mem st) (__initialValues st) /\
  props_at (mem (clearErrors st)) (__touched (clearErrors st))
    = props_at (mem st) (__touched st).
Proof.
  intros (Hv & Hi & He & Ht).
  assert (Hclear : forall st',
    props_at (mem (clearErrors st')) (__errors (clearErrors st'))
    = overridden VNull (props_at (mem st') (__initialValues st'))).
  { intros st'. unfold clearErrors. simpl.
    rewrite clone_default by discriminate. simpl. apply props_at_snoc. }
  split; [apply Hclear |]. split.
  { intros k. rewrite Hclear. apply get_field_overridden. }
  split.
  { intros field msg. rewrite Hclear. f_equal.
    unfold setFieldError. simpl. by apply props_at_alloc_old. }
  unfold clearErrors. simpl. by rewrite !props_at_clone_old.
Qed.

Lemma clearErrors_resets_every_entry_witness :
  stores_in_heap sample_form /\
  props_at (mem (clearErrors (setFieldError sample_form "nick" (VStr "bad"))))
    (__errors (clearErrors (setFieldError sample_form "nick" (VStr "bad"))))
  = overridden VNull (props_at (mem sample_form) (__initialValues sample_form)).
Proof.
  assert (Hs : stores_in_heap sample_form)
    by (unfold stores_in_heap; simpl; lia).
  split; [exact Hs |].
  apply (clearErrors_resets_every_entry sample_form Hs).
Defined.

(** ** New initial values *)

Lemma setInitialValues_copy (st : Form) (l : loc) (obj : props) :
  closed (mem st) -> mem st !! l = Some (OPlain obj) ->
  setInitialValues st (VRef l)
    = (set___initialValues (clone (mem st) obj VUndefined) st, Normal) /\
  mem st `prefix_of` (clone (mem st) obj VUndefined).1 /\
  (length (mem st) <= (clone (mem st) obj VUndefined).2)%nat /\
  (plain_fields (mem st) obj = true ->
   deep_equal (clone (mem st) obj VUndefined).1
     (VRef (clone (mem st) obj VUndefined).2) (mem st) (VRef l)).
Proof.
  intros Hc Hobj.
  destruct (clone_layout (mem st) l obj Hc Hobj)
    as (entries & He & Hlen & Hpre & HF).
  split.
  { unfold setInitialValues. simpl. unfold props_at. by rewrite Hobj. }
  split; [done |]. split; [done |].
  intros Hdata [| depth]; [reflexivity |]. simpl. rewrite He, Hobj. f_equal.
  by apply copies_snapshot.
Qed.

(** X11. [setInitialValues] on a plain object whose fields hold primitives,
    arrays or plain objects stores a new object that deep-equals the
    argument and is not the argument; it returns normally and the values,
    the errors, the touched map (down to any depth) and the flags are as
    they were. On [undefined] or [null] it throws a TypeError and the form
    is as it was. *)
Theorem setInitialValues_copies (st : Form) (l : loc) (obj : props) :
  closed (mem st) -> stores_in_heap st ->
  mem st !! l = Some (OPlain obj) ->
  plain_fields (mem st) obj = true ->
  (setInitialValues st (VRef l)).2 = Normal /\
  deep_equal (mem (setInitialValues st (VRef l)).1)
    (VRef (__initialValues (setInitialValues st (VRef l)).1))
    (mem st) (VRef l) /\
  (length (mem st) <= __initialValues (setInitialValues st (VRef l)).1)%nat /\
  values (setInitialValues st (VRef l)).1 = values st /\
  __errors (setInitialValues st (VRef l)).1 = __errors st /\
  __touched (setInitialValues st (VRef l)).1 = __touched st /\
  __isSubmitting (setInitialValues st (VRef l)).1 = __isSubmitting st /\
  __isValidating (setInitialValues st (VRef l)).1 = __isValidating st /\
  (forall v,
     in_heap (mem st) v ->
     deep_equal (mem (setInitialValues st (VRef l)).1) v (mem st) v) /\
  (forall v,
     v = VUndefined \/ v = VNull ->
     exists msg, setInitialValues st v = (st, Throw (TypeError msg))).
Proof.
  intros Hc Hs Hobj Hdata.
  destruct (setInitialValues_copy st l obj Hc Hobj)
    as (Heq & Hpre & Hlen & Hdeep).
  specialize (Hdeep Hdata).
  rewrite Heq. simpl.
  repeat (split; [done |]). split.
  - intros v Hv depth. by apply snapshot_prefix.
  - intros v [-> | ->]; eexists; reflexivity.
Qed.

Lemma sample_form_closed : closed (mem sample_form).
Proof. apply closedb_closed. reflexivity. Qed.

Lemma sample_form_in_heap : stores_in_heap sample_form.
Proof. unfold stores_in_heap. simpl. lia. Qed.

Lemma setInitialValues_copies_witness :
  closed (mem sample_form) /\ stores_in_heap sample_form /\
  plain_fields (mem sample_form) (props_at sample_heap 2) = true /\
  deep_equal (mem (setInitialValues sample_form (VRef 2)).1)
    (VRef (__initialValues (setInitialValues sample_form (VRef 2)).1))
    (mem sample_form) (VRef 2).
Proof.
  split; [exact sample_form_closed |].
  split; [exact sample_form_in_heap |]. split; [reflexivity |].
  apply (setInitialValues_copies sample_form 2 (props_at sample_heap 2)
           sample_form_closed sample_form_in_heap eq_refl eq_refl).
Defined.

(** X12. [setInitialValues] on a plain object whose fields hold primitives,
    arrays or plain objects, followed by [reset], makes the new initial
    values the current values: the values store then deep-equals the
    object that was passed in, and what it holds is not the caller's
    object. *)
Theorem setInitialValues_then_reset (ToNumber : jsvalue -> jsvalue)
    (config : FormConfig) (st : Form) (l : loc) (obj : props) :
  closed (mem st) -> mem st !! l = Some (OPlain obj) ->
  plain_fields (mem st) obj = true ->
  deep_equal
    (mem (run ToNumber config [SetInitialValues (VRef l); Reset] st))
    (VRef (values (run ToNumber config [SetInitialValues (VRef l); Reset] st)))
    (mem st) (VRef l) /\
  values (run ToNumber config [SetInitialValues (VRef l); Reset] st) <> l.
Proof.
  intros Hc Hobj Hdata.
  destruct (setInitialValues_copy st l obj Hc Hobj)
    as (Heq & Hpre & Hlen & Hdeep).
  specialize (Hdeep Hdata).
  unfold run. cbn [fold_left step]. rewrite Heq. simpl.
  split; [done |].
  apply lookup_lt_Some in Hobj. lia.
Qed.

Lemma setInitialValues_then_reset_witness :
  closed (mem sample_form) /\
  plain_fields (mem sample_form) (props_at sample_heap 2) = true /\
  deep_equal
    (mem (run test_ToNumber plain_config [SetInitialValues (VRef 2); Reset]
            sample_form))
    (VRef (values (run test_ToNumber plain_config
                     [SetInitialValues (VRef 2); Reset] sample_form)))
    (mem sample_form) (VRef 2).
Proof.
  split; [exact sample_form_closed |]. split; [reflexivity |].
  apply (setInitialValues_then_reset test_ToNumber plain_config sample_form 2
           (props_at sample_heap 2) sample_form_closed eq_refl eq_refl).
Defined.

(** ** Validating one field *)

Lemma setFieldError_get (st : Form) (field : string) (msg : jsvalue)
    (k : string) :
  get_field
    (props_at (mem (setFieldError st field msg))
       (__errors (setFieldError st field msg))) k
  = if String.eqb field k then msg
    else get_field (props_at (mem st) (__errors st)) k.
Proof.
  unfold setFieldError. simpl. rewrite props_at_snoc. apply get_set_field.
Qed.

Lemma setFieldError_errors_only (st : Form) (field : string) (msg : jsvalue) :
  stores_in_heap st -> errors_only st (setFieldError st field msg).
Proof.
  intros (Hv & Hi & He & Ht). unfold errors_only, setFieldError. simpl.
  set (o := OPlain _).
  change (mem st ++ [o]) with (alloc (mem st) o).1.
  by rewrite !props_at_alloc_old.
Qed.

Lemma errors_only_refl (st : Form) : errors_only st st.
Proof. by repeat split. Qed.

Lemma setYupValidationErrors_errors_only (st : Form) (error : thrown) :
  stores_in_heap st ->
  errors_only st (setYupValidationErrors st error).1.
Proof.
  intros Hs. unfold setYupValidationErrors.
  destruct error as [v | e]; [by repeat split |].
  destruct (path e); [| by repeat split].
  destruct (errors e); [| by repeat split].
  by apply setFieldError_errors_only.
Qed.

Lemma validateField_errors_only (config : FormConfig) (st : Form)
    (field : string) :
  stores_in_heap st -> errors_only st (validateField config st field).1.
Proof.
  intros Hs. unfold validateField.
  destruct (call_schema config _);
    [by apply setYupValidationErrors_errors_only
    | by apply setFieldError_errors_only].
Qed.

Lemma validateFieldSync_errors_only (config : FormConfig) (st : Form)
    (field : string) :
  stores_in_heap st -> errors_only st (validateFieldSync config st field).1.
Proof.
  intros Hs. unfold validateFieldSync.
  destruct (call_schema config _);
    [by apply setYupValidationErrors_errors_only |].
  by apply (setFieldError_errors_only st field VUndefined).
Qed.

(** X13. [validateField] runs the schema's [validateAt] on the current
    values. When it resolves, the field's error becomes [null]; when it
    throws an error with a path and an [errors] array, the first message
    of the array is stored under the error's own path (the field asked for
    plays no part), [undefined] if the array is empty. Either way the call
    returns normally, nothing is logged, the other errors read as before
    and the values, initial values, touched map and flags are untouched. *)
Theorem validateField_stores_first_message (config : FormConfig) (st : Form)
    (field : string) (schema : Schema) :
  validationSchema config = Some schema -> stores_in_heap st ->
  (validateAt schema field (mem st) (values st) = None ->
   (validateField config st field).2 = Normal /\
   trace (validateField config st field).1 = trace st /\
   forall k,
     get_field
       (props_at (mem (validateField config st field).1)
          (__errors (validateField config st field).1)) k
     = if String.eqb field k then VNull
       else get_field (props_at (mem st) (__errors st)) k) /\
  (forall e p msgs,
     validateAt schema field (mem st) (values st) = Some (ThrownObject e) ->
     path e = Some p -> errors e = Some msgs ->
     (validateField config st field).2 = Normal /\
     trace (validateField config st field).1 = trace st /\
     forall k,
       get_field
         (props_at (mem (validateField config st field).1)
            (__errors (validateField config st field).1)) k
       = if String.eqb p k then hd VUndefined msgs
         else get_field (props_at (mem st) (__errors st)) k) /\
  errors_only st (validateField config st field).1.
Proof.
  intros Hschema Hs. split; [| split].
  - intros Hpass. unfold validateField, call_schema.
    rewrite Hschema, Hpass. simpl.
    split; [done |]. split; [done |]. intros k.
    apply (setFieldError_get st field VNull k).
  - intros e p msgs Hfail Hp He. unfold validateField, call_schema.
    rewrite Hschema, Hfail. unfold setYupValidationErrors.
    rewrite Hp, He. simpl.
    split; [done |]. split; [done |]. intros k.
    apply (setFieldError_get st p (hd VUndefined msgs) k).
  - by apply validateField_errors_only.
Qed.

Lemma validateField_stores_first_message_witness :
  validationSchema required_config = Some required_schema /\
  stores_in_heap sample_form /\
  forall k,
    get_field
      (props_at (mem (validateField required_config sample_form "tags").1)
         (__errors (validateField required_config sample_form "tags").1)) k
    = if String.eqb "tags" k then VStr "You must provide the name."
      else get_field (props_at (mem sample_form) (__errors sample_form)) k.
Proof.
  split; [reflexivity |]. split; [exact sample_form_in_heap |].
  destruct (validateField_stores_first_message required_config sample_form
              "tags" required_schema eq_refl sample_form_in_heap)
    as (_ & Hfail & _).
  destruct (Hfail _ "tags" [VStr "You must provide the name."]
              eq_refl eq_refl eq_refl) as (_ & _ & Hget).
  exact Hget.
Defined.

(** X14. [validateFieldSync] does the same with [validateSyncAt], except
    that a field that passes gets [undefined], not [null], as its error. *)
Theorem validateFieldSync_stores_first_message (config : FormConfig)
    (st : Form) (field : string) (schema : Schema) :
  validationSchema config = Some schema -> stores_in_heap st ->
  (validateSyncAt schema field (mem st) (values st) = None ->
   (validateFieldSync config st field).2 = Normal /\
   trace (validateFieldSync config st field).1 = trace st /\
   forall k,
     get_field
       (props_at (mem (validateFieldSync config st field).1)
          (__errors (validateFieldSync config st field).1)) k
     = if String.eqb field k then VUndefined
       else get_field (props_at (mem st) (__errors st)) k) /\
  (forall e p msgs,
     validateSyncAt schema field (mem st) (values st)
       = Some (ThrownObject e) ->
     path e = Some p -> errors e = Some msgs ->
     (validateFieldSync config st field).2 = Normal /\
     trace (validateFieldSync config st field).1 = trace st /\
     forall k,
       get_field
         (props_at (mem (validateFieldSync config st field).1)
            (__errors (validateFieldSync config st field).1)) k
       = if String.eqb p k then hd VUndefined msgs
         else get_field (props_at (mem st) (__errors st)) k) /\
  errors_only st (validateFieldSync config st field).1.
Proof.
  intros Hschema Hs. split; [| split].
  - intros Hpass. unfold validateFieldSync, call_schema.
    rewrite Hschema, Hpass. simpl.
    split; [done |]. split; [done |]. intros k.
    apply (setFieldError_get st field VUndefined k).
  - intros e p msgs Hfail Hp He. unfold validateFieldSync, call_schema.
    rewrite Hschema, Hfail. unfold setYupValidationErrors.
    rewrite Hp, He. simpl.
    split; [done |]. split; [done |]. intros k.
    apply (setFieldError_get st p (hd VUndefined msgs) k).
  - by apply validateFieldSync_errors_only.
Qed.

Lemma validateFieldSync_stores_first_message_witness :
  validationSchema required_config = Some required_schema /\
  stores_in_heap sample_form /\
  forall k,
    get_field
      (props_at (mem (validateFieldSync required_config sample_form "name").1)
         (__errors (validateFieldSync required_config sample_form "name").1))
      k
    = if String.eqb "name" k then VUndefined
      else get_field (props_at (mem sample_form) (__errors sample_form)) k.
Proof.
  split; [reflexivity |]. split; [exact sample_form_in_heap |].
  destruct (validateFieldSync_stores_first_message required_config
              sample_form "name" required_schema eq_refl sample_form_in_heap)
    as (Hpass & _ & _).
  destruct (Hpass eq_refl) as (_ & _ & Hget).
  exact Hget.
Defined.

(** X15. When the schema throws a primitive (a string, a number,
    [undefined]), the [catch] of the field validators itself fails:
    ['path' in error] raises a TypeError, which reaches the caller of
    [validateFieldSync] (and rejects [validateField]). Nothing is logged
    and no store changes. Through [setFieldValue] with validation the new
    value is stored first and the TypeError then reaches the caller. *)
Theorem thrown_primitive_escapes (config : FormConfig) (st : Form)
    (field : string) (schema : Schema) (v : jsvalue) :
  validationSchema config = Some schema ->
  (validateAt schema field (mem st) (values st) = Some (ThrownPrimitive v) ->
   exists msg,
     validateField config st field = (st, Throw (TypeError msg))) /\
  (validateSyncAt schema field (mem st) (values st)
     = Some (ThrownPrimitive v) ->
   exists msg,
     validateFieldSync config st field = (st, Throw (TypeError msg))) /\
  (forall value,
     (forall h l,
        validateSyncAt schema field h l = Some (ThrownPrimitive v)) ->
     exists msg,
       (setFieldValue config st field value true).2 = Throw (TypeError msg) /\
       trace (setFieldValue config st field value true).1 = trace st /\
       __errors (setFieldValue config st field value true).1 = __errors st /\
       get_field
         (props_at (mem (setFieldValue config st field value true).1)
            (values (setFieldValue config st field value true).1)) field
       = value).
Proof.
  intros Hschema. split; [| split].
  - intros Hthrow. unfold validateField, call_schema.
    rewrite Hschema, Hthrow. eexists. reflexivity.
  - intros Hthrow. unfold validateFieldSync, call_schema.
    rewrite Hschema, Hthrow. eexists. reflexivity.
  - intros value Hthrow. unfold setFieldValue.
    rewrite Hschema, bool_decide_eq_true_2 by (by eexists).
    cbn [andb].
    unfold validateFieldSync, call_schema. rewrite Hschema, Hthrow. simpl.
    eexists. split; [reflexivity |]. split; [reflexivity |].
    split; [reflexivity |].
    rewrite props_at_snoc, get_set_field. by rewrite String.eqb_refl.
Qed.

Lemma thrown_primitive_escapes_witness :
  validationSchema rude_config = Some rude_schema /\
  exists msg,
    validateFieldSync rude_config sample_form "name"
    = (sample_form, Throw (TypeError msg)).
Proof.
  split; [reflexivity |].
  destruct (thrown_primitive_escapes rude_config sample_form "name"
              rude_schema (VStr "no") eq_refl) as (_ & Hsync & _).
  apply Hsync. reflexivity.
Defined.

(** ** Setting a value, with validation *)

Lemma stores_in_heap_set_values (st : Form) (o : object) :
  stores_in_heap st -> stores_in_heap (set_values (alloc (mem st) o) st).
Proof.
  intros (Hv & Hi & He & Ht). unfold stores_in_heap. simpl.
  rewrite length_app. simpl. lia.
Qed.

Lemma stores_in_heap_set_touched (st : Form) (o : object) :
  stores_in_heap st -> stores_in_heap (set___touched (alloc (mem st) o) st).
Proof.
  intros (Hv & Hi & He & Ht). unfold stores_in_heap. simpl.
  rewrite length_app. simpl. lia.
Qed.

(** The values after [setFieldValue], validated or not. *)
Lemma setFieldValue_values_get (config : FormConfig) (st : Form)
    (field : string) (value : jsvalue) (b : bool) (k : string) :
  stores_in_heap st ->
  get_field
    (props_at (mem (setFieldValue config st field value b).1)
       (values (setFieldValue config st field value b).1)) k
  = if String.eqb field k then value
    else get_field (props_at (mem st) (values st)) k.
Proof.
  intros Hs. unfold setFieldValue.
  set (fs := set_field (props_at (mem st) (values st)) field value).
  set (st1 := set_values (alloc (mem st) (OPlain fs)) st).
  assert (H1 : props_at (mem st1) (values st1) = fs)
    by apply props_at_snoc.
  assert (Hs1 : stores_in_heap st1) by (by apply stores_in_heap_set_values).
  destruct (b && _).
  - destruct (validateFieldSync_errors_only config st1 field Hs1)
      as (_ & -> & _).
    rewrite H1. apply get_set_field.
  - cbn [fst]. rewrite H1. apply get_set_field.
Qed.

(** X16. [setFieldValue] with validation stores the value and then
    validates the stored values, so a schema that judges a field by its
    value judges the new value: if it accepts it, the field's error becomes
    [undefined]; if it rejects it with a well-formed error, the first
    message is stored under the error's path, and the rejected value stays
    in the values all the same. *)
Theorem setFieldValue_validates_new_value (config : FormConfig) (st : Form)
    (field : string) (value : jsvalue) (schema : Schema)
    (verdict : jsvalue -> option thrown) :
  validationSchema config = Some schema -> stores_in_heap st ->
  (forall h l,
     validateSyncAt schema field h l
     = verdict (get_field (props_at h l) field)) ->
  get_field
    (props_at (mem (setFieldValue config st field value true).1)
       (values (setFieldValue config st field value true).1)) field
    = value /\
  (verdict value = None ->
   (setFieldValue config st field value true).2 = Normal /\
   get_field
     (props_at (mem (setFieldValue config st field value true).1)
        (__errors (setFieldValue config st field value true).1)) field
   = VUndefined) /\
  (forall e p msgs,
     verdict value = Some (ThrownObject e) ->
     path e = Some p -> errors e = Some msgs ->
     (setFieldValue config st field value true).2 = Normal /\
     get_field
       (props_at (mem (setFieldValue config st field value true).1)
          (__errors (setFieldValue config st field value true).1)) p
     = hd VUndefined msgs).
Proof.
  intros Hschema Hs Hverdict. split.
  { rewrite setFieldValue_values_get by done. by rewrite String.eqb_refl. }
  unfold setFieldValue.
  rewrite Hschema, bool_decide_eq_true_2 by (by eexists). cbn [andb].
  set (fs := set_field (props_at (mem st) (values st)) field value).
  set (st1 := set_values (alloc (mem st) (OPlain fs)) st).
  assert (Hcall : validateSyncAt schema field (mem st1) (values st1)
                  = verdict value).
  { rewrite Hverdict. f_equal. unfold st1. simpl. rewrite props_at_snoc.
    unfold fs. rewrite get_set_field. by rewrite String.eqb_refl. }
  unfold validateFieldSync, call_schema. rewrite Hschema, Hcall. split.
  - intros ->. split; [done |].
    etrans; [exact (setFieldError_get st1 field VUndefined field) |].
    by rewrite String.eqb_refl.
  - intros e p msgs -> Hp He. unfold setYupValidationErrors.
    rewrite Hp, He. split; [done |].
    etrans; [exact (setFieldError_get st1 p (hd VUndefined msgs) p) |].
    by rewrite String.eqb_refl.
Qed.

Lemma setFieldValue_validates_new_value_witness :
  validationSchema required_config = Some required_schema /\
  stores_in_heap sample_form /\
  get_field
    (props_at
       (mem (setFieldValue required_config sample_form "name"
               (VStr "") true).1)
       (__errors (setFieldValue required_config sample_form "name"
                    (VStr "") true).1)) "name"
  = VStr "You must provide the name.".
Proof.
  split; [reflexivity |]. split; [exact sample_form_in_heap |].
  destruct (setFieldValue_validates_new_value required_config sample_form
              "name" (VStr "") required_schema (required_verdict "name")
              eq_refl sample_form_in_heap (fun _ _ => eq_refl))
    as (_ & _ & Hfail).
  destruct (Hfail _ "name" [VStr "You must provide the name."]
              eq_refl eq_refl eq_refl) as (_ & Hget).
  exact Hget.
Defined.

(** ** Events on inputs *)

(** X17. [handleChange] and [handleInput] store the input's value under the
    input's name, whatever the validation flags and whatever validation
    then finds: as a number ([ToNumber] of the raw value) when the input's
    type is exactly number or range, as it is for every other type (file
    and unknown types included). Every other field of the values reads as
    before. An event without a target throws and changes nothing. *)
Theorem handleChange_stores_input_value (ToNumber : jsvalue -> jsvalue)
    (config : FormConfig) (st : Form) (event : Event) :
  stores_in_heap st ->
  (forall t k,
     target event = Some t ->
     get_field
       (props_at (mem (handleChange ToNumber config st event).1)
          (values (handleChange ToNumber config st event).1)) k
     = (if String.eqb (el_name t) k then getInputValue ToNumber t
        else get_field (props_at (mem st) (values st)) k) /\
     get_field
       (props_at (mem (handleInput ToNumber config st event).1)
          (values (handleInput ToNumber config st event).1)) k
     = (if String.eqb (el_name t) k then getInputValue ToNumber t
        else get_field (props_at (mem st) (values st)) k)) /\
  (forall t,
     el_type t = "number" \/ el_type t = "range" ->
     getInputValue ToNumber t = ToNumber (el_value t)) /\
  (forall t,
     el_type t <> "number" -> el_type t <> "range" ->
     getInputValue ToNumber t = el_value t) /\
  (target event = None ->
   exists msg,
     handleChange ToNumber config st event = (st, Throw (TypeError msg)) /\
     handleInput ToNumber config st event = (st, Throw (TypeError msg))).
Proof.
  intros Hs. split; [| split; [| split]].
  - intros t k Ht. unfold handleChange, handleInput. rewrite Ht.
    split; by apply setFieldValue_values_get.
  - intros t [H | H]; unfold getInputValue; rewrite H; reflexivity.
  - intros t Hn Hr. unfold getInputValue.
    apply String.eqb_neq in Hn, Hr. by rewrite Hn, Hr.
  - intros Ht. unfold handleChange, handleInput. rewrite Ht.
    eexists. split; reflexivity.
Qed.

Lemma handleChange_stores_input_value_witness :
  stores_in_heap sample_form /\
  get_field
    (props_at
       (mem (handleChange test_ToNumber required_config sample_form
               (event_on number_input)).1)
       (values (handleChange test_ToNumber required_config sample_form
                  (event_on number_input)).1)) "name"
  = VNum 1234.
Proof.
  split; [exact sample_form_in_heap |].
  destruct (handleChange_stores_input_value test_ToNumber required_config
              sample_form (event_on number_input) sample_form_in_heap)
    as (Hget & _).
  destruct (Hget number_input "name" eq_refl) as [Hc _].
  exact Hc.
Defined.

(** X18. [handleBlur] and [handleFocus] on an event with a target always
    return normally and mark the target's name touched ([true]); the other
    entries of the touched map and the values read as before. This holds
    with validation on the event switched on as well, whatever the schema
    does, since the handler does not wait for [validateField] nor see how
    it ends; with it switched off the errors and the trace are untouched
    too. *)
Theorem handleBlur_marks_touched (config : FormConfig) (st : Form)
    (event : Event) (t : HTMLInputElement) :
  target event = Some t -> stores_in_heap st ->
  ((handleBlur config st event).2 = Normal /\
   (forall k,
      get_field
        (props_at (mem (handleBlur config st event).1)
           (__touched (handleBlur config st event).1)) k
      = if String.eqb (el_name t) k then VBool true
        else get_field (props_at (mem st) (__touched st)) k) /\
   props_at (mem (handleBlur config st event).1)
     (values (handleBlur config st event).1)
     = props_at (mem st) (values st) /\
   (validateOnBlur config = false ->
    props_at (mem (handleBlur config st event).1)
      (__errors (handleBlur config st event).1)
      = props_at (mem st) (__errors st) /\
    trace (handleBlur config st event).1 = trace st)) /\
  ((handleFocus config st event).2 = Normal /\
   (forall k,
      get_field
        (props_at (mem (handleFocus config st event).1)
           (__touched (handleFocus config st event).1)) k
      = if String.eqb (el_name t) k then VBool true
        else get_field (props_at (mem st) (__touched st)) k) /\
   props_at (mem (handleFocus config st event).1)
     (values (handleFocus config st event).1)
     = props_at (mem st) (values st) /\
   (validateOnFocus config = false ->
    props_at (mem (handleFocus config st event).1)
      (__errors (handleFocus config st event).1)
      = props_at (mem st) (__errors st) /\
    trace (handleFocus config st event).1 = trace st)).
Proof.
  intros Ht Hs.
  set (fs := set_field (props_at (mem st) (__touched st)) (el_name t)
               (VBool true)).
  set (st1 := set___touched (alloc (mem st) (OPlain fs)) st).
  assert (Htouch : setFieldTouched st (el_name t) VUndefined = (st1, Normal))
    by reflexivity.
  assert (Hs1 : stores_in_heap st1) by (by apply stores_in_heap_set_touched).
  assert (Ht1 : props_at (mem st1) (__touched st1) = fs)
    by apply props_at_snoc.
  destruct Hs as (Hv & Hi & He & Hto).
  assert (Hv1 : props_at (mem st1) (values st1) = props_at (mem st) (values st))
    by (by apply props_at_alloc_old).
  assert (He1 : props_at (mem st1) (__errors st1)
                = props_at (mem st) (__errors st))
    by (by apply props_at_alloc_old).
  assert (Hvalidated :
    (forall k,
       get_field
         (props_at (mem (validateField config st1 (el_name t)).1)
            (__touched (validateField config st1 (el_name t)).1)) k
       = if String.eqb (el_name t) k then VBool true
         else get_field (props_at (mem st) (__touched st)) k) /\
    props_at (mem (validateField config st1 (el_name t)).1)
      (values (validateField config st1 (el_name t)).1)
      = props_at (mem st) (values st)).
  { destruct (validateField_errors_only config st1 (el_name t) Hs1)
      as (_ & -> & _ & -> & _).
    rewrite Ht1, Hv1. split; [| done]. intros k. apply get_set_field. }
  destruct Hvalidated as [Hvt Hvv].
  unfold handleBlur, handleFocus. rewrite Ht, Htouch.
  split.
  - destruct (validateOnBlur config); cbn [fst snd].
    + split; [done |]. split; [exact Hvt |]. split; [exact Hvv | done].
    + split; [done |]. rewrite Ht1.
      split; [intros k; apply get_set_field |]. split; [exact Hv1 |].
      intros _. split; [exact He1 | done].
  - destruct (validateOnFocus config); cbn [fst snd].
    + split; [done |]. split; [exact Hvt |]. split; [exact Hvv | done].
    + split; [done |]. rewrite Ht1.
      split; [intros k; apply get_set_field |]. split; [exact Hv1 |].
      intros _. split; [exact He1 | done].
Qed.

Lemma handleBlur_marks_touched_witness :
  target (event_on text_input) = Some text_input /\
  stores_in_heap sample_form /\
  (handleBlur rude_config sample_form (event_on text_input)).2 = Normal /\
  forall k,
    get_field
      (props_at
         (mem (handleBlur rude_config sample_form (event_on text_input)).1)
         (__touched
            (handleBlur rude_config sample_form (event_on text_input)).1)) k
    = if String.eqb "name" k then VBool true
      else get_field (props_at (mem sample_form) (__touched sample_form)) k.
Proof.
  split; [reflexivity |]. split; [exact sample_form_in_heap |].
  destruct (handleBlur_marks_touched rude_config sample_form
              (event_on text_input) text_input eq_refl sample_form_in_heap)
    as ((Hc & Hget & _) & _).
  split; [exact Hc | exact Hget].
Defined.

(** ** Errors over a submit *)

Lemma clearErrors_errors (st : Form) :
  mem (clearErrors st)
    = mem st ++ [OPlain (overridden VNull
                           (props_at (mem st) (__initialValues st)))] /\
  __errors (clearErrors st) = length (mem st).
Proof.
  unfold clearErrors. simpl. rewrite clone_default by discriminate. done.
Qed.

(** X19. When the schema's whole-object validation throws something that
    is not a validation error (no [inner]: a plain Error, a primitive),
    [handleSubmit] throws that very value to its caller. [onSubmit] is not
    called, the errors are left cleared ([null] under every key of the
    initial values, whatever they held before), the values are untouched
    and both flags are down. *)
Theorem handleSubmit_rethrows (config : FormConfig) (st : Form)
    (event : option Event) (callback : Callback) (schema : Schema)
    (error : thrown) :
  onSubmit config = Some callback ->
  validationSchema config = Some schema ->
  stores_in_heap st ->
  validate schema (mem (clearErrors st)) (values st) = Some error ->
  inner_of error = None ->
  (handleSubmit config st event).2 = Throw error /\
  trace (handleSubmit config st event).1 = trace st ++ announced event /\
  (forall l, OnSubmit l ∉ announced event) /\
  props_at (mem (handleSubmit config st event).1)
    (__errors (handleSubmit config st event).1)
    = overridden VNull (props_at (mem st) (__initialValues st)) /\
  props_at (mem (handleSubmit config st event).1)
    (values (handleSubmit config st event).1)
    = props_at (mem st) (values st) /\
  __isSubmitting (handleSubmit config st event).1 = false /\
  __isValidating (handleSubmit config st event).1 = false.
Proof.
  intros Hcb Hschema (Hv & Hi & He & Ht) Hval Hinner.
  destruct (stop_event_spec st event) as [Hsame Htrace].
  destruct (clearErrors_congr _ _ Hsame) as [Hmem Herr].
  destruct Hsame as (_ & _ & _ & _ & _ & _ & Hvalues).
  destruct (clearErrors_errors st) as [Hm He'].
  unfold handleSubmit, validate_values. rewrite Hcb, Hschema.
  cbn [mem set___isSubmitting set___isValidating].
  rewrite Hmem, Hvalues, Hval, Hinner.
  cbn [fst snd mem set___isSubmitting set___isValidating __errors trace
       values __isSubmitting __isValidating].
  rewrite ?Hmem, ?Herr, ?Hvalues, ?Hm, ?He'.
  change (values (clearErrors (stop_event st event)))
    with (values (stop_event st event)).
  rewrite Hvalues.
  split; [done |]. split; [exact Htrace |]. split.
  { intros l. unfold announced.
    destruct (from_option preventDefault false event),
      (from_option stopPropagation false event); simpl;
      rewrite ?elem_of_cons, elem_of_nil; intuition discriminate. }
  split; [apply props_at_snoc |]. split; [| done].
  apply props_at_prefix; [by apply prefix_app_r | done].
Qed.

Lemma handleSubmit_rethrows_witness :
  stores_in_heap stale_form /\
  (handleSubmit broken_schema_config stale_form (Some click)).2
    = Throw (ThrownObject pathless_error) /\
  props_at (mem (handleSubmit broken_schema_config stale_form (Some click)).1)
    (__errors (handleSubmit broken_schema_config stale_form (Some click)).1)
    = overridden VNull
        (props_at (mem stale_form) (__initialValues stale_form)).
Proof.
  assert (Hs : stores_in_heap stale_form)
    by (unfold stores_in_heap; simpl; lia).
  split; [exact Hs |].
  destruct (handleSubmit_rethrows broken_schema_config stale_form
              (Some click) scrubbing_callback pathless_schema
              (ThrownObject pathless_error) eq_refl eq_refl Hs
              eq_refl eq_refl) as (Hc & _ & _ & He & _).
  split; [exact Hc | exact He].
Defined.

Lemma length_assign (h : heap) (a : loc) (k : string) (v : jsvalue) :
  length (assign h a k v) = length h.
Proof.
  unfold assign. destruct (h !! a) as [[items | fs | cls slots fs] |]; try done.
  apply length_insert.
Qed.

Lemma props_at_assign_ne (h : heap) (a l : loc) (k : string) (v : jsvalue) :
  l <> a -> props_at (assign h a k v) l = props_at h l.
Proof.
  intros Hne. unfold assign, props_at.
  destruct (h !! a) as [[items | fs | cls slots fs] |]; try done.
  by rewrite list_lookup_insert_ne.
Qed.

Lemma errors_after_cons (s : callback_step) (steps : list callback_step)
    (fs : props) :
  errors_after (s :: steps) fs
  = errors_after steps
      match s with
      | CallSetFieldError field msg => set_field fs field msg
      | _ => fs
      end.
Proof. reflexivity. Qed.

(** The errors through what a callback does: only its [setFieldError]
    calls count. *)
Lemma callback_steps_errors (config : FormConfig) (arg : loc)
    (steps : list callback_step) (st : Form) :
  (arg < __errors st)%nat -> (__errors st < length (mem st))%nat ->
  props_at (mem (fold_left (callback_do config arg) steps st))
    (__errors (fold_left (callback_do config arg) steps st))
  = errors_after steps (props_at (mem st) (__errors st)).
Proof.
  revert st. induction steps as [| s steps IH]; intros st Harg Herr;
    [reflexivity |].
  rewrite errors_after_cons. cbn [fold_left].
  destruct s as [field msg | field v | field v].
  - rewrite IH.
    + f_equal. unfold callback_do, setFieldError. simpl. apply props_at_snoc.
    + simpl. lia.
    + simpl. rewrite length_app. simpl. lia.
  - rewrite IH.
    + f_equal. simpl. by apply props_at_alloc_old.
    + simpl. lia.
    + simpl. rewrite length_app. simpl. lia.
  - rewrite IH.
    + f_equal. simpl. apply props_at_assign_ne. lia.
    + simpl. lia.
    + simpl. rewrite length_assign. lia.
Qed.

Lemma errors_after_untouched (steps : list callback_step) (fs : props)
    (k : string) :
  (forall msg, CallSetFieldError k msg ∉ steps) ->
  get_field (errors_after steps fs) k = get_field fs k.
Proof.
  revert fs. induction steps as [| s steps IH]; intros fs Hk; [reflexivity |].
  rewrite errors_after_cons.
  rewrite IH by (intros msg Hin; apply (Hk msg); by right).
  destruct s as [field msg | field v | field v]; try reflexivity.
  rewrite get_set_field.
  destruct (String.eqb field k) eqn:E; [| reflexivity].
  apply String.eqb_eq in E. subst field. exfalso. apply (Hk msg). left.
Qed.

(** X20. When a submit reaches [onSubmit], the errors it leaves are exactly
    what the callback's [setFieldError] calls, in order, make of cleared
    errors: a field the callback reports no error for holds [null] if it is
    a key of the initial values and is absent otherwise, whatever error it
    had before the submit; the callback's [setFieldValue] calls and its
    writes into the values it was given do not touch the errors. *)
Theorem handleSubmit_errors_are_the_callbacks (config : FormConfig)
    (st : Form) (event : option Event) (callback : Callback) :
  onSubmit config = Some callback ->
  validation_passes config st ->
  stores_in_heap st ->
  props_at (mem (handleSubmit config st event).1)
    (__errors (handleSubmit config st event).1)
    = errors_after (callback (mem (clearErrors st)) (values st)).1
        (overridden VNull (props_at (mem st) (__initialValues st))) /\
  forall k,
    (forall msg,
       CallSetFieldError k msg
         ∉ (callback (mem (clearErrors st)) (values st)).1) ->
    get_field
      (props_at (mem (handleSubmit config st event).1)
         (__errors (handleSubmit config st event).1)) k
    = if bool_decide (k ∈ keys (props_at (mem st) (__initialValues st)))
      then VNull else VUndefined.
Proof.
  intros Hcb Hpass (Hv & Hi & He & Ht).
  destruct (stop_event_spec st event) as [Hsame Htrace].
  destruct (clearErrors_congr _ _ Hsame) as [Hmem Herr].
  destruct Hsame as (_ & _ & _ & _ & _ & _ & Hvalues).
  destruct (clearErrors_errors st) as [Hm He'].
  set (cleared := overridden VNull (props_at (mem st) (__initialValues st)))
    in *.
  assert (Hmain :
    props_at (mem (handleSubmit config st event).1)
      (__errors (handleSubmit config st event).1)
    = errors_after (callback (mem (clearErrors st)) (values st)).1 cleared).
  { unfold handleSubmit, validation_passes in *. rewrite Hcb, Hvalues.
    set (st0 := stop_event st event) in *.
    assert (Hcall : forall st1,
      mem st1 = mem (clearErrors st0) ->
      __errors st1 = __errors (clearErrors st0) ->
      props_at (mem (call_onSubmit config callback st1 (values st)).1)
        (__errors (call_onSubmit config callback st1 (values st)).1)
      = errors_after (callback (mem (clearErrors st)) (values st)).1 cleared).
    { intros st1 Hm1 He1. unfold call_onSubmit.
      cbn [mem emit]. rewrite Hm1, Hmem.
      destruct (callback (mem (clearErrors st)) (values st)) as [steps t].
      cbn [fst]. rewrite callback_steps_errors.
      - cbn [mem emit __errors]. rewrite Hm1, He1, Hmem, Herr, Hm, He'.
        by rewrite props_at_snoc.
      - cbn [emit __errors]. rewrite He1, Herr, He'. exact Hv.
      - cbn [emit __errors mem]. rewrite He1, Hm1, Herr, Hmem, He', Hm.
        rewrite length_app. simpl. lia. }
    destruct (validationSchema config) as [schema |].
    - unfold validate_values.
      cbn [mem set___isSubmitting set___isValidating].
      rewrite Hmem, Hpass.
      specialize (Hcall (set___isValidating false
                           (set___isValidating true
                              (set___isSubmitting true (clearErrors st0))))
                    eq_refl eq_refl).
      destruct (call_onSubmit config callback _ (values st)) as [st2 c2].
      exact Hcall.
    - specialize (Hcall (set___isSubmitting true (clearErrors st0))
                    eq_refl eq_refl).
      destruct (call_onSubmit config callback _ (values st)) as [st2 c2].
      exact Hcall. }
  split; [exact Hmain |].
  intros k Hk. rewrite Hmain, errors_after_untouched by done.
  apply get_field_overridden.
Qed.

Lemma handleSubmit_errors_are_the_callbacks_witness :
  validation_passes reporting_config stale_form /\
  stores_in_heap stale_form /\
  props_at (mem (handleSubmit reporting_config stale_form None).1)
    (__errors (handleSubmit reporting_config stale_form None).1)
  = [("name", VStr "taken"); ("tags", VNull)].
Proof.
  assert (Hpass : validation_passes reporting_config stale_form)
    by reflexivity.
  assert (Hs : stores_in_heap stale_form)
    by (unfold stores_in_heap; simpl; lia).
  split; [exact Hpass |]. split; [exact Hs |].
  apply (handleSubmit_errors_are_the_callbacks reporting_config stale_form
           None busy_callback eq_refl Hpass Hs).
Defined.

(** ** Fields that hold other objects *)

(** A field that holds a Date: [clone] stores in its place a plain object
    without properties, which a deep comparison tells from the Date, in
    the initial values and in the values alike. *)
Example newForm_date_field :
  exists st,
    newForm dated_heap (Some dated_config) = Created st /\
    plain_fields dated_heap (props_at dated_heap 1) = false /\
    snapshot 2 dated_heap (VRef 1)
      = TObject [("when", TExotic "Date" [TNum 0] [])] /\
    snapshot 2 (mem st) (VRef (__initialValues st))
      = TObject [("when", TObject [])] /\
    snapshot 2 (mem st) (VRef (values st))
      = TObject [("when", TObject [])].
Proof. eexists. repeat split. Qed.
